(** * GPIO bit-banged I2C engine (src/device/i2c_gpio.c)

    A shallow embedding of the two coupled state machines of
    [i2c_gpio.c]: the wire decoder [i2c_gpio_set] and the byte
    dispatcher [i2c_gpio_write] / [i2c_gpio_next_byte] /
    [i2c_gpio_stop], together with the two output queries.

    The I2C bus (the [dev->i2c] handle and the functions of
    [86box/i2c.h]) is external to the file.  It is represented by the
    chronological log of the calls made on it; the answers of
    [i2c_has_device] and [i2c_read] are parameters that may depend on
    that log. *)

From Stdlib Require Import ZArith List Bool Lia.
Import ListNotations.
Open Scope Z_scope.

(** ** Machine integers *)

(** Every scalar field of [i2c_gpio_t] is a [uint8_t]. *)
Definition u8 (x : Z) : Z := x mod 256.

(** C truth value of an integer. *)
Definition is_set (x : Z) : bool := negb (x =? 0).

(** ** Enumerations *)

Definition TRANSMITTER_SLAVE : Z := 1.
Definition TRANSMITTER_MASTER : Z := 2.

Inductive wire_state : Type :=
| I2C_IDLE
| I2C_RECEIVE
| I2C_RECEIVE_WAIT
| I2C_TRANSMIT_START
| I2C_TRANSMIT
| I2C_ACKNOWLEDGE
| I2C_TRANSACKNOWLEDGE
| I2C_TRANSMIT_WAIT.

Inductive byte_state : Type :=
| SLAVE_IDLE
| SLAVE_RECEIVEADDR
| SLAVE_RECEIVEDATA
| SLAVE_SENDDATA
| SLAVE_INVALID.

Definition wire_state_eqb (a b : wire_state) : bool :=
  match a, b with
  | I2C_IDLE, I2C_IDLE
  | I2C_RECEIVE, I2C_RECEIVE
  | I2C_RECEIVE_WAIT, I2C_RECEIVE_WAIT
  | I2C_TRANSMIT_START, I2C_TRANSMIT_START
  | I2C_TRANSMIT, I2C_TRANSMIT
  | I2C_ACKNOWLEDGE, I2C_ACKNOWLEDGE
  | I2C_TRANSACKNOWLEDGE, I2C_TRANSACKNOWLEDGE
  | I2C_TRANSMIT_WAIT, I2C_TRANSMIT_WAIT => true
  | _, _ => false
  end.

(** ** The bus as seen from the engine *)

(** One entry per call of [i2c_has_device], [i2c_start], [i2c_stop],
    [i2c_read] (with the byte it returned) and [i2c_write]. *)
Inductive call : Type :=
| HasDevice (addr : Z)
| Start (addr : Z)
| Stop (addr : Z)
| Read (addr : Z) (data : Z)
| Write (addr : Z) (data : Z).

(** ** The device record

    [i2c] stands for the bus behind the handle: the log of calls made
    so far.  [bus_name] is used for logging only and is left out.
    [transmit] stays an integer: [memset] leaves it at 0, which is
    neither [TRANSMITTER_SLAVE] nor [TRANSMITTER_MASTER]. *)
Record i2c_gpio_t : Type := mk_dev {
  i2c : list call;
  scl : Z;
  sda : Z;
  state : wire_state;
  slave_state : byte_state;
  slave_addr : Z;
  slave_rw : Z;
  last_sda : Z;
  pos : Z;
  transmit : Z;
  byte : Z
}.

Definition set_i2c (d : i2c_gpio_t) (v : list call) : i2c_gpio_t :=
  mk_dev v (scl d) (sda d) (state d) (slave_state d) (slave_addr d)
         (slave_rw d) (last_sda d) (pos d) (transmit d) (byte d).

Definition set_scl (d : i2c_gpio_t) (v : Z) : i2c_gpio_t :=
  mk_dev (i2c d) v (sda d) (state d) (slave_state d) (slave_addr d)
         (slave_rw d) (last_sda d) (pos d) (transmit d) (byte d).

Definition set_sda (d : i2c_gpio_t) (v : Z) : i2c_gpio_t :=
  mk_dev (i2c d) (scl d) v (state d) (slave_state d) (slave_addr d)
         (slave_rw d) (last_sda d) (pos d) (transmit d) (byte d).

Definition set_state (d : i2c_gpio_t) (v : wire_state) : i2c_gpio_t :=
  mk_dev (i2c d) (scl d) (sda d) v (slave_state d) (slave_addr d)
         (slave_rw d) (last_sda d) (pos d) (transmit d) (byte d).

Definition set_slave_state (d : i2c_gpio_t) (v : byte_state) : i2c_gpio_t :=
  mk_dev (i2c d) (scl d) (sda d) (state d) v (slave_addr d)
         (slave_rw d) (last_sda d) (pos d) (transmit d) (byte d).

Definition set_slave_addr (d : i2c_gpio_t) (v : Z) : i2c_gpio_t :=
  mk_dev (i2c d) (scl d) (sda d) (state d) (slave_state d) v
         (slave_rw d) (last_sda d) (pos d) (transmit d) (byte d).

Definition set_slave_rw (d : i2c_gpio_t) (v : Z) : i2c_gpio_t :=
  mk_dev (i2c d) (scl d) (sda d) (state d) (slave_state d) (slave_addr d)
         v (last_sda d) (pos d) (transmit d) (byte d).

Definition set_last_sda (d : i2c_gpio_t) (v : Z) : i2c_gpio_t :=
  mk_dev (i2c d) (scl d) (sda d) (state d) (slave_state d) (slave_addr d)
         (slave_rw d) v (pos d) (transmit d) (byte d).

Definition set_pos (d : i2c_gpio_t) (v : Z) : i2c_gpio_t :=
  mk_dev (i2c d) (scl d) (sda d) (state d) (slave_state d) (slave_addr d)
         (slave_rw d) (last_sda d) v (transmit d) (byte d).

Definition set_transmit (d : i2c_gpio_t) (v : Z) : i2c_gpio_t :=
  mk_dev (i2c d) (scl d) (sda d) (state d) (slave_state d) (slave_addr d)
         (slave_rw d) (last_sda d) (pos d) v (byte d).

Definition set_byte (d : i2c_gpio_t) (v : Z) : i2c_gpio_t :=
  mk_dev (i2c d) (scl d) (sda d) (state d) (slave_state d) (slave_addr d)
         (slave_rw d) (last_sda d) (pos d) (transmit d) v.

(** A call on the bus is appended to its log. *)
Definition bus_call (d : i2c_gpio_t) (c : call) : i2c_gpio_t :=
  set_i2c d (i2c d ++ [c]).

(** ** Byte arithmetic of the decoder *)

(** Lines 201-205: [byte <<= 1], then the sampled bit goes in bit 0. *)
Definition shift_in (b sda' : Z) : Z :=
  let b1 := u8 (Z.shiftl b 1) in
  if is_set sda' then Z.lor b1 1 else Z.land b1 254.

(** Line 277: [byte & 0x80], the level put on the data line. *)
Definition msb (b : Z) : Z := Z.land b 128.

(** Line 279: [byte <<= 1] on a [uint8_t]. *)
Definition shl1 (b : Z) : Z := u8 (Z.shiftl b 1).

(** ** i2c_gpio_init *)

Definition i2c_gpio_init : i2c_gpio_t :=
  {| i2c := []; scl := 1; sda := 1; state := I2C_IDLE;
     slave_state := SLAVE_IDLE; slave_addr := 255; slave_rw := 0;
     last_sda := 0; pos := 0; transmit := 0; byte := 0 |}.

(** Result of the [switch] of [i2c_gpio_set]: either control reaches
    the statements after it, with the (possibly overwritten) local
    [sda], or the function has returned from inside [I2C_TRANSMIT]. *)
Inductive outcome : Type :=
| Break (d : i2c_gpio_t) (sda' : Z)
| Return (d : i2c_gpio_t).

Section Engine.

(** Answers of the bus, given the calls it has seen so far. *)
Variable i2c_has_device : list call -> Z -> bool.
Variable i2c_read : list call -> Z -> Z.

(** ** i2c_gpio_next_byte *)
Definition i2c_gpio_next_byte (d : i2c_gpio_t) : i2c_gpio_t :=
  let v := u8 (i2c_read (i2c d) (slave_addr d)) in
  set_byte (bus_call d (Read (slave_addr d) v)) v.

(** ** i2c_gpio_write *)
Definition i2c_gpio_write (d : i2c_gpio_t) : i2c_gpio_t :=
  match slave_state d with
  | SLAVE_IDLE =>
      let i := slave_addr d in
      let d := set_slave_addr d (Z.shiftr (byte d) 1) in
      let d := set_slave_rw d (Z.land (byte d) 1) in
      let present := i2c_has_device (i2c d) (slave_addr d) in
      let d := bus_call d (HasDevice (slave_addr d)) in
      if negb present then set_slave_state d SLAVE_INVALID
      else
        let d := if i =? 255 then bus_call d (Start (slave_addr d)) else d in
        if is_set (slave_rw d) then
          let d := set_slave_state d SLAVE_SENDDATA in
          let d := set_transmit d TRANSMITTER_SLAVE in
          i2c_gpio_next_byte d
        else
          let d := set_slave_state d SLAVE_RECEIVEADDR in
          set_transmit d TRANSMITTER_MASTER
  | SLAVE_RECEIVEADDR =>
      let d := bus_call d (Write (slave_addr d) (byte d)) in
      set_slave_state d
        (if is_set (slave_rw d) then SLAVE_SENDDATA else SLAVE_RECEIVEDATA)
  | SLAVE_RECEIVEDATA =>
      bus_call d (Write (slave_addr d) (byte d))
  | SLAVE_SENDDATA | SLAVE_INVALID => d
  end.

(** ** i2c_gpio_stop *)
Definition i2c_gpio_stop (d : i2c_gpio_t) : i2c_gpio_t :=
  let d := if negb (slave_addr d =? 255)
           then bus_call d (Stop (slave_addr d)) else d in
  let d := set_slave_addr d 255 in
  let d := set_slave_state d SLAVE_IDLE in
  set_transmit d TRANSMITTER_MASTER.

(** ** i2c_gpio_set *)

(** [case I2C_RECEIVE], also reached by fall-through. *)
Definition receive_case (d : i2c_gpio_t) (scl' sda' : Z) : outcome :=
  if negb (is_set (scl d)) && is_set scl' then
    let d := set_byte d (shift_in (byte d) sda') in
    let d := set_pos d (u8 (pos d + 1)) in
    if pos d =? 8
    then Break (set_state (i2c_gpio_write d) I2C_ACKNOWLEDGE) sda'
    else Break d sda'
  else if is_set (scl d) && is_set scl' then
    if is_set sda' && negb (is_set (last_sda d)) then
      Break (i2c_gpio_stop (set_state d I2C_IDLE)) sda'
    else if negb (is_set sda') && is_set (last_sda d) then
      Break (set_slave_state (set_pos d 0) SLAVE_IDLE) sda'
    else Break d sda'
  else Break d sda'.

(** [case I2C_TRANSMIT], also reached by fall-through. *)
Definition transmit_case (d : i2c_gpio_t) (scl' sda' : Z) : outcome :=
  if negb (is_set (scl d)) && is_set scl' then
    let d := set_scl d scl' in
    let d := set_sda d (msb (byte d)) in
    let d := set_byte d (shl1 (byte d)) in
    Return (set_pos d (u8 (pos d + 1)))
  else if is_set (scl d) && negb (is_set scl') && (pos d =? 8) then
    Break (set_state d I2C_TRANSACKNOWLEDGE) sda'
  else Break d sda'.

(** The [switch (dev->state)]. *)
Definition dispatch (d : i2c_gpio_t) (scl' sda' : Z) : outcome :=
  match state d with
  | I2C_IDLE =>
      if is_set scl' && is_set (last_sda d) && negb (is_set sda')
      then Break (set_pos (set_state d I2C_RECEIVE) 0) sda'
      else Break d sda'
  | I2C_RECEIVE_WAIT =>
      let d := if negb (is_set (scl d)) && is_set scl'
               then set_state d I2C_RECEIVE else d in
      receive_case d scl' sda'
  | I2C_RECEIVE => receive_case d scl' sda'
  | I2C_ACKNOWLEDGE =>
      if negb (is_set (scl d)) && is_set scl' then
        let d := set_pos d 0 in
        Break (set_state d
                 (if transmit d =? TRANSMITTER_MASTER
                  then I2C_RECEIVE_WAIT else I2C_TRANSMIT)) 0
      else Break d sda'
  | I2C_TRANSACKNOWLEDGE =>
      if negb (is_set (scl d)) && is_set scl' then
        if is_set sda' then
          Break (i2c_gpio_stop (set_state d I2C_IDLE)) sda'
        else
          let d := set_state d I2C_TRANSMIT_START in
          let d := i2c_gpio_next_byte d in
          Break (set_pos d 0) sda'
      else Break d sda'
  | I2C_TRANSMIT_WAIT =>
      if is_set (scl d) && is_set scl' then
        let d := if is_set (last_sda d) && negb (is_set sda')
                 then set_pos (i2c_gpio_next_byte d) 0 else d in
        let d := if negb (is_set (last_sda d)) && is_set sda'
                 then i2c_gpio_stop (set_state d I2C_IDLE) else d in
        Break d sda'
      else Break d sda'
  | I2C_TRANSMIT_START =>
      let d := if negb (is_set (scl d)) && is_set scl'
               then set_state d I2C_TRANSMIT else d in
      let d := if is_set (scl d) && is_set scl'
                  && negb (is_set (last_sda d)) && is_set sda'
               then i2c_gpio_stop (set_state d I2C_IDLE) else d in
      transmit_case d scl' sda'
  | I2C_TRANSMIT => transmit_case d scl' sda'
  end.

(** Lines 290-293, the statements after the [switch]. *)
Definition latch (d : i2c_gpio_t) (scl' sda' : Z) : i2c_gpio_t :=
  let d := if negb (is_set (scl d)) && is_set scl' then set_sda d sda' else d in
  let d := set_last_sda d sda' in
  set_scl d scl'.

Definition i2c_gpio_set (d : i2c_gpio_t) (scl' sda' : Z) : i2c_gpio_t :=
  match dispatch d scl' sda' with
  | Break d sda' => latch d scl' sda'
  | Return d => d
  end.

(** ** Output queries *)

Definition i2c_gpio_get_scl (d : i2c_gpio_t) : Z := scl d.

Definition i2c_gpio_get_sda (d : i2c_gpio_t) : Z :=
  if wire_state_eqb (state d) I2C_TRANSMIT
     || wire_state_eqb (state d) I2C_ACKNOWLEDGE
  then sda d
  else if wire_state_eqb (state d) I2C_RECEIVE_WAIT then 0
  else 1.

(** ** Feeding a sequence of level pairs *)

Fixpoint feed (d : i2c_gpio_t) (es : list (Z * Z)) : i2c_gpio_t :=
  match es with
  | [] => d
  | (c, s) :: es' => feed (i2c_gpio_set d c s) es'
  end.

End Engine.

(** ** Waveforms of a bit-banging master

    The standard I2C framing, as the level pairs [(scl, sda)] a master
    passes to [i2c_gpio_set]: data changes while the clock is low,
    except for the start and stop conditions. *)

Definition lvl (b : bool) : Z := if b then 1 else 0.

(** Most significant bit first. *)
Definition bits_of (b : Z) : list bool :=
  map (Z.testbit b) [7; 6; 5; 4; 3; 2; 1; 0].

(** Bus free, then data falls while the clock is high; the clock is
    then taken low. *)
Definition start_cond : list (Z * Z) := [(1, 1); (1, 0); (0, 0)].

(** One clock pulse with the data line held at [s]. *)
Definition bit_clock (s : Z) : list (Z * Z) := [(0, s); (1, s); (0, s)].

(** Eight clock pulses carrying [b]. *)
Definition send_byte (b : Z) : list (Z * Z) :=
  flat_map (fun x => bit_clock (lvl x)) (bits_of b).

(** The ninth clock pulse of a byte sent by the master: the master
    releases the data line so that the receiver can acknowledge. *)
Definition ack_clock : list (Z * Z) := bit_clock 1.

(** Eight clock pulses with the data line released, on which the
    master reads a byte. *)
Definition recv_byte : list (Z * Z) :=
  flat_map (fun _ : nat => bit_clock 1) (seq 0 8).

(** Data rises while the clock is high. *)
Definition stop_cond : list (Z * Z) := [(0, 0); (1, 0); (1, 1)].

(** Start without a preceding stop: release data with the clock low,
    raise the clock, pull data low, take the clock low. *)
Definition restart_cond : list (Z * Z) := [(0, 1); (1, 1); (1, 0); (0, 0)].

Definition send_bytes (bs : list Z) : list (Z * Z) :=
  flat_map (fun b => send_byte b ++ ack_clock) bs.

(** Address byte of a write: the direction bit is 0. *)
Definition write_txn (a : Z) (bs : list Z) : list (Z * Z) :=
  start_cond ++ send_byte (2 * a) ++ ack_clock ++ send_bytes bs ++ stop_cond.

(** [k] bytes read and acknowledged by the master. *)
Fixpoint recv_acked (k : nat) : list (Z * Z) :=
  match k with
  | O => []
  | S k' => (recv_byte ++ bit_clock 0) ++ recv_acked k'
  end.

(** The master acknowledges every byte it reads but the last. *)
Definition recv_bytes (n : nat) : list (Z * Z) :=
  match n with
  | O => []
  | S k => recv_acked k ++ recv_byte ++ bit_clock 1
  end.

(** Address byte of a read: the direction bit is 1. *)
Definition read_txn (a : Z) (n : nat) : list (Z * Z) :=
  start_cond ++ send_byte (2 * a + 1) ++ ack_clock ++ recv_bytes n ++ stop_cond.

(** ** Observations *)

Section Observe.

Variable i2c_has_device : list call -> Z -> bool.
Variable i2c_read : list call -> Z -> Z.

(** What [i2c_gpio_get_sda] answers right after each rising clock
    edge of a waveform. *)
Fixpoint sampled (d : i2c_gpio_t) (es : list (Z * Z)) : list Z :=
  match es with
  | [] => []
  | (c, s) :: es' =>
      let d' := i2c_gpio_set i2c_has_device i2c_read d c s in
      if negb (is_set (scl d)) && is_set c
      then i2c_gpio_get_sda d' :: sampled d' es'
      else sampled d' es'
  end.

(** The bytes that [n] successive [i2c_read] calls return, the first
    one made when the log is [h]. *)
Fixpoint reads (h : list call) (a : Z) (n : nat) : list Z :=
  match n with
  | O => []
  | S n' =>
      let v := u8 (i2c_read h a) in
      v :: reads (h ++ [Read a v]) a n'
  end.

End Observe.

(** A transaction is open when the last [i2c_start] / [i2c_stop] call
    on the bus was an [i2c_start]. *)
Fixpoint txn_open_from (o : bool) (h : list call) : bool :=
  match h with
  | [] => o
  | Start _ :: h' => txn_open_from true h'
  | Stop _ :: h' => txn_open_from false h'
  | _ :: h' => txn_open_from o h'
  end.

Definition txn_open (h : list call) : bool := txn_open_from false h.

(** States the engine can be in: [i2c_gpio_init] followed by any
    number of [i2c_gpio_set] calls. *)
Inductive reachable (hd : list call -> Z -> bool) (rd : list call -> Z -> Z)
  : i2c_gpio_t -> Prop :=
| reach_init : reachable hd rd i2c_gpio_init
| reach_set d c s :
    reachable hd rd d -> reachable hd rd (i2c_gpio_set hd rd d c s).

(** The value of a bit string read most significant bit first, on
    top of an accumulator. *)
Definition bits_value (x : Z) (bs : list bool) : Z :=
  fold_left (fun acc b => 2 * acc + lvl b) bs x.

(** The decoder's accumulator after the samples [bs]. *)
Definition shift_in_all (x : Z) (bs : list bool) : Z :=
  fold_left (fun acc b => shift_in acc (lvl b)) bs x.

(** The levels the transmitter puts on the data line for the byte
    [v], one per clock pulse (lines 277-279 iterated). *)
Definition tx_levels (v : Z) : list Z :=
  map (fun i => msb (Nat.iter i shl1 v)) (seq 0 8).

(** No transaction in progress on the wire or on the bus. *)
Definition bus_idle (d : i2c_gpio_t) : Prop :=
  state d = I2C_IDLE /\ slave_state d = SLAVE_IDLE /\ slave_addr d = 255.

(** What every reachable state satisfies: the byte register holds a
    byte, an idle wire decoder has no target address, and without a
    target address no transaction is open on the bus. *)
Definition engine_inv (d : i2c_gpio_t) : Prop :=
  0 <= byte d < 256 /\
  (state d = I2C_IDLE -> slave_addr d = 255) /\
  (slave_addr d = 255 -> txn_open (i2c d) = false).

Definition outcome_inv (o : outcome) : Prop :=
  match o with
  | Break d _ => engine_inv d
  | Return d => engine_inv d
  end.

(** [d'] is [d] after its transaction has been closed by
    [i2c_gpio_stop]. *)
Definition closed_from (d d' : i2c_gpio_t) : Prop :=
  i2c d' = (if slave_addr d =? 255 then i2c d
            else i2c d ++ [Stop (slave_addr d)]) /\
  slave_addr d' = 255 /\
  slave_state d' = SLAVE_IDLE.

(** The ninth clock pulse of a byte, edge by edge: the waveforms that
    end inside the acknowledge window. *)
Definition ack_window : list (list (Z * Z)) :=
  [[(0, 1)]; [(0, 1); (1, 1)]; [(0, 1); (1, 1); (0, 1)]].

(** ** Some buses to run the engine against *)

(** No device at all. *)
Definition bus_empty : list call -> Z -> bool := fun _ _ => false.

(** Devices at the addresses listed. *)
Definition bus_with (addrs : list Z) : list call -> Z -> bool :=
  fun _ a => existsb (Z.eqb a) addrs.

(** A device that answers every read with the number of calls the bus
    has seen so far. *)
Definition read_count : list call -> Z -> Z :=
  fun h _ => Z.of_nat (length h).

(** An engine that has already gone through one start and stop. *)
Definition used_engine : i2c_gpio_t :=
  {| i2c := []; scl := 1; sda := 0; state := I2C_IDLE;
     slave_state := SLAVE_IDLE; slave_addr := 255; slave_rw := 0;
     last_sda := 1; pos := 1; transmit := TRANSMITTER_MASTER; byte := 0 |}.

(** ** Well-formed states *)

(** What the engine may pass to the bus: 7-bit addresses and bytes. *)
Definition call_ok (c : call) : Prop :=
  match c with
  | HasDevice a | Start a | Stop a => 0 <= a < 128
  | Read a v | Write a v => 0 <= a < 128 /\ 0 <= v < 256
  end.

(** How the byte state constrains target address, direction and
    [transmit]. *)
Definition byte_wf (ss : byte_state) (sa rw tr : Z) : Prop :=
  match ss with
  | SLAVE_IDLE => tr <> TRANSMITTER_SLAVE
  | SLAVE_RECEIVEADDR | SLAVE_RECEIVEDATA =>
      sa <> 255 /\ rw = 0 /\ tr = TRANSMITTER_MASTER
  | SLAVE_SENDDATA => sa <> 255 /\ rw = 1 /\ tr = TRANSMITTER_SLAVE
  | SLAVE_INVALID => sa <> 255 /\ tr <> TRANSMITTER_SLAVE
  end.

(** How the wire state constrains the bit counter, the sampled clock
    and the byte-level fields. *)
Definition wire_wf (st : wire_state) (p : Z) (clock_high : bool)
    (ss : byte_state) (sa tr : Z) : Prop :=
  match st with
  | I2C_IDLE => ss = SLAVE_IDLE /\ sa = 255
  | I2C_RECEIVE => p <= 7 /\ tr <> TRANSMITTER_SLAVE
  | I2C_RECEIVE_WAIT => p = 0 /\ tr = TRANSMITTER_MASTER /\ sa <> 255
  | I2C_ACKNOWLEDGE => ss <> SLAVE_IDLE
  | I2C_TRANSMIT =>
      ss <> SLAVE_IDLE /\ tr <> TRANSMITTER_MASTER /\
      (p = 8 -> clock_high = true)
  | I2C_TRANSMIT_START =>
      ss <> SLAVE_IDLE /\ tr <> TRANSMITTER_MASTER /\ p = 0
  | I2C_TRANSACKNOWLEDGE =>
      ss <> SLAVE_IDLE /\ tr <> TRANSMITTER_MASTER /\ p = 8
  | I2C_TRANSMIT_WAIT => False
  end.

(** The part of the invariant about the byte dispatcher's fields. *)
Definition byte_part (d : i2c_gpio_t) : Prop :=
  0 <= byte d < 256 /\
  (slave_rw d = 0 \/ slave_rw d = 1) /\
  (slave_addr d = 255 \/ 0 <= slave_addr d < 128) /\
  (transmit d = 0 \/ transmit d = TRANSMITTER_SLAVE \/
   transmit d = TRANSMITTER_MASTER) /\
  Forall call_ok (i2c d) /\
  byte_wf (slave_state d) (slave_addr d) (slave_rw d) (transmit d).

(** The part about the wire decoder's fields. *)
Definition wire_part (d : i2c_gpio_t) : Prop :=
  0 <= pos d <= 8 /\
  wire_wf (state d) (pos d) (is_set (scl d)) (slave_state d) (slave_addr d)
          (transmit d).

Definition engine_wf (d : i2c_gpio_t) : Prop := byte_part d /\ wire_part d.

(** The state [i2c_gpio_set] ends in, from the result of its
    [switch]: the statements after it store the clock level. *)
Definition outcome_wf (c : Z) (o : outcome) : Prop :=
  match o with
  | Break d _ => engine_wf (set_scl d c)
  | Return d => engine_wf d
  end.

(** The state inside the result of the [switch]. *)
Definition outcome_state (o : outcome) : i2c_gpio_t :=
  match o with
  | Break d _ => d
  | Return d => d
  end.

(** Clock pulses carrying the bits [bits], as many as there are. *)
Definition send_bits (bits : list bool) : list (Z * Z) :=
  flat_map (fun x => bit_clock (lvl x)) bits.

(** ** Sessions *)

(** A transaction as the master sees it: bytes written to an address,
    or [S n] bytes read from it. *)
Inductive txn : Type :=
| Wr (a : Z) (bs : list Z)
| Rd (a : Z) (n : nat).

Definition txn_addr (t : txn) : Z :=
  match t with Wr a _ | Rd a _ => a end.

Definition txn_wave (t : txn) : list (Z * Z) :=
  match t with
  | Wr a bs => write_txn a bs
  | Rd a n => read_txn a (S n)
  end.

Definition txn_ok (t : txn) : Prop :=
  0 <= txn_addr t < 128 /\
  match t with
  | Wr _ bs => Forall (fun b => 0 <= b < 256) bs
  | Rd _ _ => True
  end.

(** The calls one transaction makes on a bus whose log is [h]. *)
Definition txn_calls (i2c_read : list call -> Z -> Z) (h : list call)
  (t : txn) : list call :=
  match t with
  | Wr a bs => HasDevice a :: Start a :: map (Write a) bs ++ [Stop a]
  | Rd a n =>
      let h0 := h ++ [HasDevice a; Start a] in
      [HasDevice a; Start a] ++ map (Read a) (reads i2c_read h0 a (S n)) ++
      [Stop a]
  end.

(** The log after the transactions [ts], one after the other. *)
Fixpoint session_calls (i2c_read : list call -> Z -> Z) (h : list call)
  (ts : list txn) : list call :=
  match ts with
  | [] => h
  | t :: ts' => session_calls i2c_read (h ++ txn_calls i2c_read h t) ts'
  end.

(** * Properties *)

(** ** Truth values and byte arithmetic *)

Lemma is_set_0 : is_set 0 = false.
Proof. reflexivity. Qed.

Lemma is_set_1 : is_set 1 = true.
Proof. reflexivity. Qed.

Lemma is_set_lvl b : is_set (lvl b) = b.
Proof. destruct b; reflexivity. Qed.

Lemma is_set_false x : is_set x = false -> x = 0.
Proof.
  unfold is_set. intros H. apply negb_false_iff in H. now apply Z.eqb_eq.
Qed.

Lemma is_set_true x : is_set x = true <-> x <> 0.
Proof.
  unfold is_set. rewrite negb_true_iff. apply Z.eqb_neq.
Qed.

(** A property checked on every number below [n]. *)
Lemma forall_below (n : nat) (P : Z -> bool) :
  forallb P (map Z.of_nat (seq 0 n)) = true ->
  forall x, 0 <= x < Z.of_nat n -> P x = true.
Proof.
  intros H x Hx. rewrite forallb_forall in H. apply H.
  replace x with (Z.of_nat (Z.to_nat x)) by lia.
  apply in_map, in_seq. lia.
Qed.

Lemma u8_range x : 0 <= u8 x < 256.
Proof. unfold u8. apply Z.mod_pos_bound. lia. Qed.

Lemma u8_small x : 0 <= x < 256 -> u8 x = x.
Proof. unfold u8. apply Z.mod_small. Qed.

Lemma even_byte_bit0 k :
  0 <= k < 128 -> Z.lor (2 * k) 1 = 2 * k + 1 /\ Z.land (2 * k) 254 = 2 * k.
Proof.
  intros Hk.
  pose proof (forall_below 128
    (fun k => (Z.lor (2 * k) 1 =? 2 * k + 1) && (Z.land (2 * k) 254 =? 2 * k))
    eq_refl k Hk) as H.
  cbv beta in H. apply andb_prop in H. destruct H as [H1 H2].
  split; now apply Z.eqb_eq.
Qed.

Lemma shift_in_eq x s :
  shift_in x s = (2 * x + lvl (is_set s)) mod 256.
Proof.
  unfold shift_in, u8. rewrite Z.shiftl_mul_pow2 by lia.
  change (2 ^ 1) with 2.
  assert (Hm : (x * 2) mod 256 = 2 * (x mod 128)).
  { replace (x * 2) with (2 * x) by lia.
    change 256 with (2 * 128). rewrite Z.mul_mod_distr_l by lia. reflexivity. }
  rewrite Hm.
  assert (Hk : 0 <= x mod 128 < 128) by (apply Z.mod_pos_bound; lia).
  destruct (even_byte_bit0 _ Hk) as [H1 H2].
  pose proof (Z.div_mod x 128 ltac:(lia)) as Hx.
  destruct (is_set s); cbn [lvl].
  - rewrite H1. apply Z.mod_unique with (q := x / 128); lia.
  - rewrite H2. apply Z.mod_unique with (q := x / 128); lia.
Qed.

Lemma shift_in_all_mod bs : forall x y,
  x mod 256 = y mod 256 ->
  (shift_in_all x bs) mod 256 = (bits_value y bs) mod 256.
Proof.
  induction bs as [|b bs IH]; intros x y Hxy; cbn [shift_in_all bits_value fold_left].
  - exact Hxy.
  - apply IH. rewrite shift_in_eq, is_set_lvl, Z.mod_mod by lia.
    rewrite (Z.add_mod (2 * x)), (Z.add_mod (2 * y)) by lia.
    rewrite (Z.mul_mod 2 x), (Z.mul_mod 2 y), Hxy by lia. reflexivity.
Qed.

Lemma bits_value_shift bs : forall x,
  bits_value x bs = x * 2 ^ Z.of_nat (length bs) + bits_value 0 bs.
Proof.
  induction bs as [|b bs IH]; intros x; cbn [bits_value fold_left length].
  - cbn. lia.
  - fold (bits_value (2 * x + lvl b) bs). fold (bits_value (2 * 0 + lvl b) bs).
    rewrite IH, (IH (2 * 0 + lvl b)).
    rewrite Nat2Z.inj_succ, Z.pow_succ_r by lia. lia.
Qed.

Lemma bits_of_value b : 0 <= b < 256 -> bits_value 0 (bits_of b) = b.
Proof.
  intros Hb. apply Z.eqb_eq.
  exact (forall_below 256 (fun b => bits_value 0 (bits_of b) =? b) eq_refl b Hb).
Qed.

(** Shifting in the eight bits of [b] leaves [b], whatever was there. *)
Lemma shift_in_bits_of x b :
  0 <= b < 256 -> shift_in_all x (bits_of b) = b.
Proof.
  intros Hb.
  assert (Hr : 0 <= shift_in_all x (bits_of b) < 256).
  { unfold bits_of, shift_in_all. cbn [map fold_left].
    rewrite shift_in_eq. apply Z.mod_pos_bound. lia. }
  rewrite <- (Z.mod_small _ 256 Hr).
  rewrite (shift_in_all_mod (bits_of b) x x eq_refl).
  rewrite bits_value_shift, bits_of_value by exact Hb.
  change (2 ^ Z.of_nat (length (bits_of b))) with 256.
  rewrite Z.add_comm, Z.mod_add by lia. apply Z.mod_small, Hb.
Qed.

(** ** Symbolic execution of the wire decoder *)

Ltac is_posnum p :=
  lazymatch p with
  | xH => idtac
  | xO ?q => is_posnum q
  | xI ?q => is_posnum q
  end.

Ltac is_num a :=
  lazymatch a with
  | Z0 => idtac
  | Zpos ?p => is_posnum p
  | Zneg ?p => is_posnum p
  end.

(** Evaluate the tests whose operands are literals. *)
Ltac eval_literals :=
  repeat match goal with
  | |- context [is_set ?a] =>
      is_num a;
      let v := eval vm_compute in (is_set a) in
      change (is_set a) with v
  | |- context [Z.eqb ?a ?b] =>
      is_num a; is_num b;
      let v := eval vm_compute in (Z.eqb a b) in
      change (Z.eqb a b) with v
  end.

Ltac prune := cbv beta iota zeta delta [negb andb orb].

(** Use the tests settled by hypotheses. *)
Ltac use_tests :=
  rewrite ?is_set_lvl;
  repeat match goal with
  | H : is_set ?x = _ |- context [is_set ?x] => rewrite H
  | H : Z.eqb ?x ?y = _ |- context [Z.eqb ?x ?y] => rewrite H
  end.

Ltac settle :=
  repeat progress
    (cbn [i2c scl sda state slave_state slave_addr slave_rw last_sda pos
          transmit byte];
     use_tests; eval_literals; prune).

(** One [i2c_gpio_set] call on an explicit record; the byte
    dispatcher stays folded. *)
Ltac step_in_place :=
  match goal with
  | |- context [i2c_gpio_set ?hd ?rd (mk_dev ?h ?c ?s ?st ?ss ?sa ?rw ?ls ?p ?tr ?b) ?c' ?s'] =>
      let t := constr:(i2c_gpio_set hd rd (mk_dev h c s st ss sa rw ls p tr b) c' s') in
      let t' := eval cbv beta iota zeta delta
        [i2c_gpio_set dispatch receive_case transmit_case latch
         i2c_gpio_stop i2c_gpio_next_byte bus_call
         set_i2c set_scl set_sda set_state set_slave_state set_slave_addr
         set_slave_rw set_last_sda set_pos set_transmit set_byte
         i2c scl sda state slave_state slave_addr slave_rw last_sda pos
         transmit byte TRANSMITTER_MASTER TRANSMITTER_SLAVE] in t in
      change t with t'
  end;
  settle.

(** The same, computed aside and rewritten everywhere it occurs. *)
Ltac step :=
  match goal with
  | |- context [i2c_gpio_set ?hd ?rd (mk_dev ?h ?c ?s ?st ?ss ?sa ?rw ?ls ?p ?tr ?b) ?c' ?s'] =>
      let E := fresh "E" in
      eassert (E : i2c_gpio_set hd rd (mk_dev h c s st ss sa rw ls p tr b) c' s' = _)
        by (step_in_place; reflexivity);
      rewrite !E; clear E
  end.

(** The data-line query on an explicit record. *)
Ltac observe :=
  cbv beta iota zeta delta
    [i2c_gpio_get_sda wire_state_eqb
     i2c scl sda state slave_state slave_addr slave_rw last_sda pos
     transmit byte];
  settle.

Section Segments.

Variable hd : list call -> Z -> bool.
Variable rd : list call -> Z -> Z.

Lemma feed_app d es1 es2 :
  feed hd rd d (es1 ++ es2) = feed hd rd (feed hd rd d es1) es2.
Proof.
  revert d. induction es1 as [|[c s] es1 IH]; intros d; cbn [feed app].
  - reflexivity.
  - apply IH.
Qed.

(** A start condition takes an idle decoder to [I2C_RECEIVE]. *)
Lemma feed_start_cond h c s ss sa rw ls p tr by' :
  feed hd rd (mk_dev h c s I2C_IDLE ss sa rw ls p tr by') start_cond =
  mk_dev h 0 (if is_set c then s else 1) I2C_RECEIVE ss sa rw 0 0 tr by'.
Proof.
  unfold start_cond. cbn [feed].
  destruct (is_set c) eqn:Hc, (is_set ls) eqn:Hls; step; step; step;
    reflexivity.
Qed.

(** One clock pulse while receiving, before the last bit of a byte. *)
Lemma feed_bit_receive h s st ss sa rw ls p tr by' x :
  st = I2C_RECEIVE \/ st = I2C_RECEIVE_WAIT ->
  0 <= p < 7 ->
  feed hd rd (mk_dev h 0 s st ss sa rw ls p tr by') (bit_clock (lvl x)) =
  mk_dev h 0 (lvl x) I2C_RECEIVE ss sa rw (lvl x) (p + 1) tr
         (shift_in by' (lvl x)).
Proof.
  intros Hst Hp. unfold bit_clock. cbn [feed].
  assert (Hp8 : (u8 (p + 1) =? 8) = false).
  { rewrite u8_small by lia. apply Z.eqb_neq. lia. }
  destruct Hst; subst st; step; step; step;
    rewrite u8_small by lia; reflexivity.
Qed.


(** The byte dispatcher leaves the wire-level fields alone. *)
Lemma write_frame d :
  let w := i2c_gpio_write hd rd d in
  scl w = scl d /\ sda w = sda d /\ state w = state d /\
  last_sda w = last_sda d /\ pos w = pos d.
Proof.
  destruct d as [h c s st ss sa rw ls p tr b].
  cbv beta iota zeta delta
    [i2c_gpio_write i2c_gpio_next_byte bus_call
     set_i2c set_slave_state set_slave_addr set_slave_rw set_transmit set_byte
     i2c scl sda state slave_state slave_addr slave_rw last_sda pos
     transmit byte].
  destruct ss; try (repeat split; reflexivity).
  destruct (hd h (Z.shiftr b 1)); cbn [negb].
  - destruct (sa =? 255), (is_set (Z.land b 1)); repeat split; reflexivity.
  - repeat split; reflexivity.
Qed.

(** The clock pulse of the eighth bit: the byte is complete and is
    handed to the byte dispatcher. *)
Lemma feed_last_bit_receive h s ss sa rw ls tr by' x :
  feed hd rd (mk_dev h 0 s I2C_RECEIVE ss sa rw ls 7 tr by')
       (bit_clock (lvl x)) =
  let w := i2c_gpio_write hd rd
             (mk_dev h 0 s I2C_RECEIVE ss sa rw (lvl x) 8 tr
                     (shift_in by' (lvl x))) in
  mk_dev (i2c w) 0 (lvl x) I2C_ACKNOWLEDGE (slave_state w) (slave_addr w)
         (slave_rw w) (lvl x) 8 (transmit w) (byte w).
Proof.
  unfold bit_clock. cbn [feed]. step.
  set (X := mk_dev h 0 s I2C_RECEIVE ss sa rw (lvl x) 8 tr
                   (shift_in by' (lvl x))).
  replace (i2c_gpio_set hd rd
             (mk_dev h 0 s I2C_RECEIVE ss sa rw (lvl x) 7 tr by') 1 (lvl x))
    with (latch (set_state (i2c_gpio_write hd rd X) I2C_ACKNOWLEDGE) 1 (lvl x))
    by reflexivity.
  cbv zeta. destruct (write_frame X) as (Hc & Hs & Hst & Hls & Hp).
  destruct (i2c_gpio_write hd rd X) as [wh wc ws wst wss wsa wrw wls wp wtr wb].
  cbn [scl sda state last_sda pos X] in Hc, Hs, Hst, Hls, Hp. subst.
  cbv beta iota zeta delta
    [latch set_state set_sda set_last_sda set_scl
     i2c scl sda state slave_state slave_addr slave_rw last_sda pos
     transmit byte].
  eval_literals. prune. step. reflexivity.
Qed.

(** A whole byte sent by the master reaches the byte dispatcher. *)
Lemma feed_send_byte h s st ss sa rw ls tr by' b :
  st = I2C_RECEIVE \/ st = I2C_RECEIVE_WAIT ->
  0 <= b < 256 ->
  feed hd rd (mk_dev h 0 s st ss sa rw ls 0 tr by') (send_byte b) =
  let w := i2c_gpio_write hd rd
             (mk_dev h 0 (lvl (Z.testbit b 1)) I2C_RECEIVE ss sa rw
                     (lvl (Z.testbit b 0)) 8 tr b) in
  mk_dev (i2c w) 0 (lvl (Z.testbit b 0)) I2C_ACKNOWLEDGE (slave_state w)
         (slave_addr w) (slave_rw w) (lvl (Z.testbit b 0)) 8 (transmit w)
         (byte w).
Proof.
  intros Hst Hb. unfold send_byte, bits_of. cbn [map flat_map].
  rewrite !feed_app.
  rewrite (feed_bit_receive _ _ _ _ _ _ _ _ _ _ _ Hst) by lia.
  do 6 (rewrite feed_bit_receive by (auto; lia)).
  change (0 + 1 + 1 + 1 + 1 + 1 + 1 + 1) with 7.
  rewrite feed_last_bit_receive. cbn [feed].
  pose proof (shift_in_bits_of by' b Hb) as Hv.
  unfold shift_in_all, bits_of in Hv. cbn [map fold_left] in Hv.
  rewrite Hv. reflexivity.
Qed.


(** The acknowledge clock pulse after a received byte. *)
Lemma feed_ack_clock h s ss sa rw ls p tr by' :
  feed hd rd (mk_dev h 0 s I2C_ACKNOWLEDGE ss sa rw ls p tr by') ack_clock =
  mk_dev h 0 0
         (if tr =? TRANSMITTER_MASTER then I2C_RECEIVE_WAIT else I2C_TRANSMIT)
         ss sa rw 1 0 tr by'.
Proof.
  unfold ack_clock, bit_clock, TRANSMITTER_MASTER. cbn [feed].
  destruct (tr =? 2) eqn:Htr; step; step; step; reflexivity.
Qed.

(** A stop condition while receiving closes the transaction. *)
Lemma feed_stop_cond_receive h s st ss sa rw ls p tr by' :
  st = I2C_RECEIVE \/ st = I2C_RECEIVE_WAIT ->
  0 <= p < 7 ->
  feed hd rd (mk_dev h 0 s st ss sa rw ls p tr by') stop_cond =
  mk_dev (if sa =? 255 then h else h ++ [Stop sa]) 1 0 I2C_IDLE SLAVE_IDLE
         255 rw 1 (p + 1) TRANSMITTER_MASTER (shift_in by' 0).
Proof.
  intros Hst Hp. unfold stop_cond, TRANSMITTER_MASTER. cbn [feed].
  assert (Hp8 : (u8 (p + 1) =? 8) = false).
  { rewrite u8_small by lia. apply Z.eqb_neq. lia. }
  destruct (sa =? 255) eqn:Hsa;
    (destruct Hst; subst st; step; step; step;
     rewrite u8_small by lia; reflexivity).
Qed.

(** A repeated start while receiving: the bit counter and the byte
    state are reset, nothing is said to the bus. *)
Lemma feed_restart_cond h s st ss sa rw ls p tr by' :
  st = I2C_RECEIVE \/ st = I2C_RECEIVE_WAIT ->
  0 <= p < 7 ->
  feed hd rd (mk_dev h 0 s st ss sa rw ls p tr by') restart_cond =
  mk_dev h 0 1 I2C_RECEIVE SLAVE_IDLE sa rw 0 0 tr (shift_in by' 1).
Proof.
  intros Hst Hp. unfold restart_cond. cbn [feed].
  assert (Hp8 : (u8 (p + 1) =? 8) = false).
  { rewrite u8_small by lia. apply Z.eqb_neq. lia. }
  destruct Hst; subst st; step; step; step; step;
    reflexivity.
Qed.

(** A stop condition on an idle decoder changes nothing but the
    sampled levels. *)
Lemma feed_stop_cond_idle h s ss sa rw ls p tr by' :
  feed hd rd (mk_dev h 0 s I2C_IDLE ss sa rw ls p tr by') stop_cond =
  mk_dev h 1 0 I2C_IDLE ss sa rw 1 p tr by'.
Proof.
  unfold stop_cond. cbn [feed]. step. step. step. reflexivity.
Qed.


(** ** Address bytes *)

Lemma addr_byte_write a : Z.shiftr (2 * a) 1 = a /\ Z.land (2 * a) 1 = 0.
Proof.
  rewrite Z.shiftr_div_pow2 by lia. change 1 with (Z.ones 1) at 2.
  rewrite Z.land_ones by lia. change (2 ^ 1) with 2.
  split; Z.div_mod_to_equations; lia.
Qed.

Lemma addr_byte_read a :
  Z.shiftr (2 * a + 1) 1 = a /\ Z.land (2 * a + 1) 1 = 1.
Proof.
  rewrite Z.shiftr_div_pow2 by lia. change 1 with (Z.ones 1) at 4.
  rewrite Z.land_ones by lia. change (2 ^ 1) with 2.
  split; Z.div_mod_to_equations; lia.
Qed.

(** The byte dispatcher on an explicit record. *)
Ltac dispatch_byte :=
  cbv beta iota zeta delta
    [i2c_gpio_write i2c_gpio_next_byte bus_call
     set_i2c set_slave_state set_slave_addr set_slave_rw set_transmit set_byte
     i2c scl sda state slave_state slave_addr slave_rw last_sda pos
     transmit byte TRANSMITTER_MASTER TRANSMITTER_SLAVE].

(** ** Write transactions *)

(** Start condition, address byte of a write to a present device,
    acknowledge clock. *)
Lemma feed_write_header h c s rw ls p tr by' a :
  0 <= a < 128 ->
  hd h a = true ->
  feed hd rd (mk_dev h c s I2C_IDLE SLAVE_IDLE 255 rw ls p tr by')
       (start_cond ++ send_byte (2 * a) ++ ack_clock) =
  mk_dev (h ++ [HasDevice a; Start a]) 0 0 I2C_RECEIVE_WAIT SLAVE_RECEIVEADDR
         a 0 1 0 TRANSMITTER_MASTER (2 * a).
Proof.
  intros Ha Hdev. rewrite !feed_app, feed_start_cond.
  rewrite feed_send_byte by (auto; lia).
  dispatch_byte. destruct (addr_byte_write a) as [-> ->]. rewrite Hdev.
  settle. rewrite feed_ack_clock. rewrite <- app_assoc.
  reflexivity.
Qed.

Lemma last_cons_default (x : Z) l d d' : last (x :: l) d = last (x :: l) d'.
Proof.
  revert x. induction l as [|y l IH]; intros x.
  - reflexivity.
  - change (last (x :: y :: l) d) with (last (y :: l) d).
    change (last (x :: y :: l) d') with (last (y :: l) d'). apply IH.
Qed.

(** Every data byte of a write is forwarded with [i2c_write]. *)
Lemma feed_send_bytes a bs : forall h s ss ls by',
  ss = SLAVE_RECEIVEADDR \/ ss = SLAVE_RECEIVEDATA ->
  Forall (fun b => 0 <= b < 256) bs ->
  feed hd rd (mk_dev h 0 s I2C_RECEIVE_WAIT ss a 0 ls 0 TRANSMITTER_MASTER by')
       (send_bytes bs) =
  mk_dev (h ++ map (Write a) bs) 0 (match bs with [] => s | _ => 0 end)
         I2C_RECEIVE_WAIT
         (match bs with [] => ss | _ => SLAVE_RECEIVEDATA end)
         a 0 (match bs with [] => ls | _ => 1 end) 0 TRANSMITTER_MASTER
         (last bs by').
Proof.
  unfold send_bytes.
  induction bs as [|b bs IH]; intros h s ss ls by' Hss Hbs; cbn [flat_map].
  - cbn [feed map last]. rewrite app_nil_r. reflexivity.
  - inversion Hbs as [|? ? Hb Hbs']; subst.
    rewrite <- app_assoc, !feed_app, feed_send_byte by (auto; lia).
    assert (Hw : forall c0 s0 st0 ls0 p0,
      i2c_gpio_write hd rd
        (mk_dev h c0 s0 st0 ss a 0 ls0 p0 TRANSMITTER_MASTER b) =
      mk_dev (h ++ [Write a b]) c0 s0 st0 SLAVE_RECEIVEDATA a 0 ls0 p0
             TRANSMITTER_MASTER b).
    { intros. destruct Hss; subst ss; dispatch_byte; settle; reflexivity. }
    rewrite Hw. cbv zeta.
    cbn [i2c slave_state slave_addr slave_rw transmit byte].
    rewrite feed_ack_clock. change (TRANSMITTER_MASTER =? TRANSMITTER_MASTER) with true.
    cbv iota. rewrite IH by auto.
    cbn [map]. rewrite <- app_assoc. cbn [app].
    destruct bs as [|b' bs]; [reflexivity|].
    rewrite (last_cons_default b' bs b by').
    change (last (b :: b' :: bs) by') with (last (b' :: bs) by'). reflexivity.
Qed.

Lemma feed_write_txn h c s rw ls p tr by' a bs :
  0 <= a < 128 ->
  hd h a = true ->
  Forall (fun b => 0 <= b < 256) bs ->
  feed hd rd (mk_dev h c s I2C_IDLE SLAVE_IDLE 255 rw ls p tr by')
       (write_txn a bs) =
  mk_dev (h ++ HasDevice a :: Start a :: map (Write a) bs ++ [Stop a])
         1 0 I2C_IDLE SLAVE_IDLE 255 0 1 1 TRANSMITTER_MASTER
         (shift_in (last bs (2 * a)) 0).
Proof.
  intros Ha Hdev Hbs. unfold write_txn.
  rewrite !app_assoc, feed_app, feed_app, <- !app_assoc.
  rewrite feed_write_header by assumption.
  rewrite feed_send_bytes by auto.
  rewrite feed_stop_cond_receive by (auto; lia).
  replace (a =? 255) with false by (symmetry; apply Z.eqb_neq; lia).
  rewrite <- !app_assoc. reflexivity.
Qed.


(** ** Read transactions *)

Lemma sampled_app d es1 es2 :
  sampled hd rd d (es1 ++ es2) =
  sampled hd rd d es1 ++ sampled hd rd (feed hd rd d es1) es2.
Proof.
  revert d. induction es1 as [|[c s] es1 IH]; intros d; cbn [sampled feed app].
  - reflexivity.
  - cbv zeta. rewrite IH.
    destruct (negb (is_set (scl d)) && is_set c); reflexivity.
Qed.

(** One clock pulse while transmitting: the top bit of the byte is
    put on the data line at the rising edge. *)
Lemma feed_bit_transmit h s st ss sa rw ls p tr by' :
  st = I2C_TRANSMIT \/ st = I2C_TRANSMIT_START ->
  0 <= p < 8 ->
  feed hd rd (mk_dev h 0 s st ss sa rw ls p tr by') (bit_clock 1) =
  mk_dev h 0 (msb by')
         (if p + 1 =? 8 then I2C_TRANSACKNOWLEDGE else I2C_TRANSMIT)
         ss sa rw 1 (p + 1) tr (shl1 by') /\
  sampled hd rd (mk_dev h 0 s st ss sa rw ls p tr by') (bit_clock 1) =
  [msb by'].
Proof.
  intros Hst Hp. unfold bit_clock. cbn [feed sampled]. cbv zeta.
  assert (Hu : u8 (p + 1) = p + 1) by (apply u8_small; lia).
  destruct (p + 1 =? 8) eqn:Hp8;
    (destruct Hst; subst st; settle; step; step; rewrite ?Hu; step; observe;
     split; reflexivity).
Qed.


Lemma tx_levels_bits v :
  0 <= v < 256 -> map is_set (tx_levels v) = bits_of v.
Proof.
  intros Hv.
  pose proof (forall_below 256
    (fun v => forallb (fun i => Bool.eqb (is_set (msb (Nat.iter i shl1 v)))
                                         (Z.testbit v (7 - Z.of_nat i)))
                      (seq 0 8)) eq_refl v Hv) as H.
  cbv beta in H. rewrite forallb_forall in H.
  unfold tx_levels, bits_of. rewrite map_map.
  change [7; 6; 5; 4; 3; 2; 1; 0] with (map (fun i => 7 - Z.of_nat i) (seq 0 8)).
  rewrite map_map. apply map_ext_in. intros i Hi.
  apply eqb_prop, H, Hi.
Qed.

(** Eight clock pulses on which the master reads the byte [v]. *)
Lemma feed_recv_byte h s st ss sa rw ls tr v :
  st = I2C_TRANSMIT \/ st = I2C_TRANSMIT_START ->
  feed hd rd (mk_dev h 0 s st ss sa rw ls 0 tr v) recv_byte =
  mk_dev h 0 (msb (Nat.iter 7 shl1 v)) I2C_TRANSACKNOWLEDGE ss sa rw 1 8 tr
         (Nat.iter 8 shl1 v) /\
  sampled hd rd (mk_dev h 0 s st ss sa rw ls 0 tr v) recv_byte = tx_levels v.
Proof.
  intros Hst. unfold recv_byte, tx_levels. cbn [seq flat_map map].
  rewrite app_nil_r, !sampled_app, !feed_app.
  destruct (feed_bit_transmit h s st ss sa rw ls 0 tr v Hst ltac:(lia))
    as [-> ->].
  change (0 + 1 =? 8) with false. cbv iota.
  repeat match goal with
  | |- context [feed hd rd (mk_dev ?h 0 ?s I2C_TRANSMIT ?ss ?sa ?rw ?ls ?p ?tr ?b)
                     (bit_clock 1)] =>
      destruct (feed_bit_transmit h s I2C_TRANSMIT ss sa rw ls p tr b
                  (or_introl eq_refl) ltac:(lia)) as [-> ->];
      match goal with
      | |- context [?a =? 8] =>
          let v := eval vm_compute in (a =? 8) in change (a =? 8) with v
      end; cbv iota
  end.
  split; reflexivity.
Qed.


(** Ninth clock pulse of a transmitted byte, the master acknowledges:
    the next byte is fetched from the bus. *)
Lemma feed_master_ack h s ss sa rw ls p tr by' :
  feed hd rd (mk_dev h 0 s I2C_TRANSACKNOWLEDGE ss sa rw ls p tr by')
       (bit_clock 0) =
  mk_dev (h ++ [Read sa (u8 (rd h sa))]) 0 0 I2C_TRANSMIT_START ss sa rw 0 0
         tr (u8 (rd h sa)) /\
  sampled hd rd (mk_dev h 0 s I2C_TRANSACKNOWLEDGE ss sa rw ls p tr by')
          (bit_clock 0) = [1].
Proof.
  unfold bit_clock. cbn [feed sampled]. cbv zeta.
  step. step. step. observe. split; reflexivity.
Qed.

(** Ninth clock pulse, the master does not acknowledge: end of the
    transfer. *)
Lemma feed_master_nack h s ss sa rw ls p tr by' :
  feed hd rd (mk_dev h 0 s I2C_TRANSACKNOWLEDGE ss sa rw ls p tr by')
       (bit_clock 1) =
  mk_dev (if sa =? 255 then h else h ++ [Stop sa]) 0 1 I2C_IDLE SLAVE_IDLE
         255 rw 1 p TRANSMITTER_MASTER by' /\
  sampled hd rd (mk_dev h 0 s I2C_TRANSACKNOWLEDGE ss sa rw ls p tr by')
          (bit_clock 1) = [1].
Proof.
  unfold bit_clock. cbn [feed sampled]. cbv zeta.
  destruct (sa =? 255) eqn:Hsa; step; step; step; observe; split;
    reflexivity.
Qed.

(** Start condition, address byte of a read from a present device,
    acknowledge clock: the first byte is fetched at once. *)
Lemma feed_read_header h c s rw ls p tr by' a :
  0 <= a < 128 ->
  hd h a = true ->
  feed hd rd (mk_dev h c s I2C_IDLE SLAVE_IDLE 255 rw ls p tr by')
       (start_cond ++ send_byte (2 * a + 1) ++ ack_clock) =
  mk_dev ((h ++ [HasDevice a; Start a]) ++
          [Read a (u8 (rd (h ++ [HasDevice a; Start a]) a))])
         0 0 I2C_TRANSMIT SLAVE_SENDDATA a 1 1 0 TRANSMITTER_SLAVE
         (u8 (rd (h ++ [HasDevice a; Start a]) a)).
Proof.
  intros Ha Hdev. rewrite !feed_app, feed_start_cond.
  rewrite feed_send_byte by (auto; lia).
  dispatch_byte. destruct (addr_byte_read a) as [-> ->]. rewrite Hdev.
  settle. rewrite feed_ack_clock. rewrite <- !app_assoc.
  reflexivity.
Qed.

Lemma reads_range h a n : Forall (fun v => 0 <= v < 256) (reads rd h a n).
Proof.
  revert h. induction n as [|n IH]; intros h; cbn [reads].
  - constructor.
  - constructor; [apply u8_range | apply IH].
Qed.

(** The bytes the master reads and acknowledges. *)
Lemma feed_recv_acked a k : forall h s st ss rw ls tr v,
  st = I2C_TRANSMIT \/ st = I2C_TRANSMIT_START ->
  0 <= v < 256 ->
  feed hd rd (mk_dev h 0 s st ss a rw ls 0 tr v) (recv_acked k) =
  mk_dev (h ++ map (Read a) (reads rd h a k)) 0
         (match k with O => s | _ => 0 end)
         (match k with O => st | _ => I2C_TRANSMIT_START end)
         ss a rw (match k with O => ls | _ => 0 end) 0 tr
         (last (reads rd h a k) v) /\
  map is_set (sampled hd rd (mk_dev h 0 s st ss a rw ls 0 tr v) (recv_acked k)) =
  flat_map (fun x => bits_of x ++ [true])
           (removelast (v :: reads rd h a k)).
Proof.
  induction k as [|k IH]; intros h s st ss rw ls tr v Hst Hv;
    cbn [recv_acked reads].
  - cbn [feed sampled map last removelast flat_map]. rewrite app_nil_r.
    split; reflexivity.
  - rewrite !sampled_app, !feed_app.
    destruct (feed_recv_byte h s st ss a rw ls tr v Hst) as [-> ->].
    destruct (feed_master_ack h (msb (Nat.iter 7 shl1 v)) ss a rw 1 8 tr
                (Nat.iter 8 shl1 v)) as [-> ->].
    set (v' := u8 (rd h a)). rewrite !map_app.
    destruct (IH (h ++ [Read a v']) 0 I2C_TRANSMIT_START ss rw 0 tr v'
                (or_intror eq_refl) (u8_range _)) as [-> ->].
    split.
    + cbn [map]. rewrite <- app_assoc. cbn [app].
      destruct k as [|k']; [reflexivity|]. cbn [reads].
      match goal with
      | |- context [last (v' :: ?r :: ?l) v] =>
          change (last (v' :: r :: l) v) with (last (r :: l) v);
          rewrite (last_cons_default r l v v')
      end.
      reflexivity.
    + rewrite tx_levels_bits by exact Hv.
      cbn [removelast flat_map map is_set]. rewrite <- app_assoc.
      reflexivity.
Qed.

Lemma removelast_last_cons (x : Z) l :
  removelast (x :: l) ++ [last l x] = x :: l.
Proof.
  replace (last l x) with (last (x :: l) x) by (destruct l; reflexivity).
  symmetry. apply app_removelast_last. discriminate.
Qed.

Lemma last_cons_in (x : Z) l d : In (last (x :: l) d) (x :: l).
Proof.
  revert x. induction l as [|y l IH]; intros x.
  - left. reflexivity.
  - right. change (last (x :: y :: l) d) with (last (y :: l) d). apply IH.
Qed.

(** The data phase of a read of [S k] bytes, from the state the
    header leaves. *)
Lemma feed_recv_bytes a k h v :
  0 <= a < 128 ->
  0 <= v < 256 ->
  let d := mk_dev h 0 0 I2C_TRANSMIT SLAVE_SENDDATA a 1 1 0
                  TRANSMITTER_SLAVE v in
  i2c (feed hd rd (feed hd rd d (recv_bytes (S k))) stop_cond) =
    h ++ map (Read a) (reads rd h a k) ++ [Stop a] /\
  map is_set (sampled hd rd d (recv_bytes (S k))) =
    flat_map (fun x => bits_of x ++ [true]) (v :: reads rd h a k).
Proof.
  intros Ha Hv d. unfold recv_bytes, d.
  rewrite !sampled_app, !feed_app, !map_app.
  destruct (feed_recv_acked a k h 0 I2C_TRANSMIT SLAVE_SENDDATA 1 1
              TRANSMITTER_SLAVE v (or_introl eq_refl) Hv) as [-> ->].
  set (st := match k with O => I2C_TRANSMIT | _ => I2C_TRANSMIT_START end).
  assert (Hst : st = I2C_TRANSMIT \/ st = I2C_TRANSMIT_START)
    by (destruct k; auto).
  set (v' := last (reads rd h a k) v).
  assert (Hv' : 0 <= v' < 256).
  { unfold v'. pose proof (reads_range h a k) as Hr.
    destruct (reads rd h a k) as [|r l] eqn:E; [exact Hv|].
    rewrite Forall_forall in Hr. apply Hr.
    apply last_cons_in. }
  match goal with
  | |- context [feed hd rd (mk_dev ?h' 0 ?s' st ?ss ?sa ?rw ?ls 0 ?tr v') recv_byte] =>
      destruct (feed_recv_byte h' s' st ss sa rw ls tr v' Hst) as [-> ->]
  end.
  match goal with
  | |- context [feed hd rd (mk_dev ?h' 0 ?s' I2C_TRANSACKNOWLEDGE ?ss ?sa ?rw ?ls ?p ?tr ?b) (bit_clock 1)] =>
      destruct (feed_master_nack h' s' ss sa rw ls p tr b) as [-> ->]
  end.
  replace (a =? 255) with false by (symmetry; apply Z.eqb_neq; lia).
  rewrite feed_stop_cond_idle. cbn [i2c]. split.
  - rewrite <- app_assoc. reflexivity.
  - rewrite tx_levels_bits by exact Hv'.
    change (map is_set [1]) with [true].
    rewrite <- (removelast_last_cons v (reads rd h a k)) at 2.
    rewrite flat_map_app. cbn [flat_map]. rewrite app_nil_r. reflexivity.
Qed.


(** ** One call of the wire decoder, in any state *)

Ltac split_ifs :=
  repeat match goal with
  | |- context [if ?x then _ else _] => destruct x eqn:?
  end.

Lemma receive_case_breaks d c s d' :
  receive_case hd rd d c s <> Return d'.
Proof.
  unfold receive_case. cbv zeta. split_ifs; discriminate.
Qed.

Lemma transmit_case_return d c s d' :
  transmit_case d c s = Return d' -> scl d' = c.
Proof.
  unfold transmit_case. cbv zeta. split_ifs; intros H; inversion H.
  reflexivity.
Qed.

Lemma dispatch_return d c s d' :
  dispatch hd rd d c s = Return d' -> scl d' = c.
Proof.
  unfold dispatch. destruct (state d); cbv zeta;
    try (split_ifs; discriminate);
    try (intros H; now apply receive_case_breaks in H);
    try apply transmit_case_return.
Qed.

(** The clock level is never anything but the one last passed in. *)
Lemma set_scl_sampled d c s : scl (i2c_gpio_set hd rd d c s) = c.
Proof.
  unfold i2c_gpio_set. destruct (dispatch hd rd d c s) eqn:E.
  - reflexivity.
  - now apply dispatch_return in E.
Qed.


(** ** The invariant of the engine *)

Lemma txn_open_from_app o h e :
  txn_open_from o (h ++ [e]) =
  match e with
  | Start _ => true
  | Stop _ => false
  | _ => txn_open_from o h
  end.
Proof.
  revert o. induction h as [|x h IH]; intros o.
  - destruct e; reflexivity.
  - destruct x; cbn [app txn_open_from]; apply IH.
Qed.

Lemma txn_open_app h e :
  txn_open (h ++ [e]) =
  match e with
  | Start _ => true
  | Stop _ => false
  | _ => txn_open h
  end.
Proof. apply txn_open_from_app. Qed.

Lemma shift_in_range x s : 0 <= shift_in x s < 256.
Proof. rewrite shift_in_eq. apply Z.mod_pos_bound. lia. Qed.

Lemma shl1_range x : 0 <= shl1 x < 256.
Proof. apply u8_range. Qed.

Lemma addr_of_byte b : 0 <= b < 256 -> 0 <= Z.shiftr b 1 < 128.
Proof.
  intros Hb. rewrite Z.shiftr_div_pow2 by lia. change (2 ^ 1) with 2.
  Z.div_mod_to_equations. lia.
Qed.

Lemma write_preserves_inv d :
  engine_inv d -> state d <> I2C_IDLE -> engine_inv (i2c_gpio_write hd rd d).
Proof.
  destruct d as [h c s st ss sa rw ls p tr b]. unfold engine_inv.
  cbn [i2c state slave_addr byte]. intros (Hb & Hidle & Hopen) Hst.
  pose proof (addr_of_byte b Hb) as Ha.
  dispatch_byte.
  destruct ss; settle; try (split; [|split]; assumption).
  - destruct (hd h (Z.shiftr b 1)), (sa =? 255), (is_set (Z.land b 1));
      settle; (split; [first [assumption | apply u8_range]|]);
      (split; [intros E; contradiction|]); intros E; lia.
  - split; [|split]; try assumption. intros E. rewrite txn_open_app. auto.
  - split; [|split]; try assumption. intros E. rewrite txn_open_app. auto.
Qed.

Lemma stop_preserves_inv d :
  engine_inv d -> engine_inv (i2c_gpio_stop (set_state d I2C_IDLE)).
Proof.
  destruct d as [h c s st ss sa rw ls p tr b]. unfold engine_inv.
  cbn [i2c state slave_addr byte]. intros (Hb & Hidle & Hopen).
  cbv beta iota zeta delta
    [i2c_gpio_stop bus_call set_i2c set_state set_slave_state set_slave_addr
     set_transmit i2c scl sda state slave_state slave_addr slave_rw last_sda
     pos transmit byte].
  destruct (Z.eqb_spec sa 255) as [E|E]; settle;
    (split; [|split]); auto.
  intros _. apply txn_open_app.
Qed.

Lemma next_byte_preserves_inv d :
  engine_inv d -> engine_inv (i2c_gpio_next_byte rd d).
Proof.
  destruct d as [h c s st ss sa rw ls p tr b]. unfold engine_inv.
  cbn [i2c state slave_addr byte]. intros (Hb & Hidle & Hopen).
  cbv beta iota zeta delta
    [i2c_gpio_next_byte bus_call set_i2c set_byte
     i2c scl sda state slave_state slave_addr slave_rw last_sda
     pos transmit byte].
  split; [|split]; auto; try apply u8_range.
  intros E. rewrite txn_open_app. auto.
Qed.


(** The invariant only looks at four fields. *)
Lemma inv_ext d d' :
  byte d' = byte d -> state d' = state d -> slave_addr d' = slave_addr d ->
  i2c d' = i2c d -> engine_inv d -> engine_inv d'.
Proof.
  unfold engine_inv. intros -> -> -> ->. exact (fun H => H).
Qed.

Lemma inv_set_scl d v : engine_inv d -> engine_inv (set_scl d v).
Proof. apply inv_ext; reflexivity. Qed.

Lemma inv_set_sda d v : engine_inv d -> engine_inv (set_sda d v).
Proof. apply inv_ext; reflexivity. Qed.

Lemma inv_set_last_sda d v : engine_inv d -> engine_inv (set_last_sda d v).
Proof. apply inv_ext; reflexivity. Qed.

Lemma inv_set_pos d v : engine_inv d -> engine_inv (set_pos d v).
Proof. apply inv_ext; reflexivity. Qed.

Lemma inv_set_slave_state d v : engine_inv d -> engine_inv (set_slave_state d v).
Proof. apply inv_ext; reflexivity. Qed.

Lemma inv_set_state_busy d v :
  engine_inv d -> v <> I2C_IDLE -> engine_inv (set_state d v).
Proof.
  unfold engine_inv. cbn [set_state byte state slave_addr i2c].
  intros (Hb & _ & Ho) Hv. split; [|split]; auto. intros E. contradiction.
Qed.

Lemma inv_set_byte d v :
  engine_inv d -> 0 <= v < 256 -> engine_inv (set_byte d v).
Proof.
  unfold engine_inv. cbn [set_byte byte state slave_addr i2c].
  intros (_ & Hi & Ho) Hv. auto.
Qed.

Ltac inv_peel :=
  repeat first
    [ assumption
    | apply inv_set_scl
    | apply inv_set_sda
    | apply inv_set_last_sda
    | apply inv_set_pos
    | apply inv_set_slave_state
    | apply stop_preserves_inv
    | apply next_byte_preserves_inv
    | apply inv_set_state_busy; [|discriminate]
    | apply inv_set_byte; [|first [apply shift_in_range | apply shl1_range]]
    | apply write_preserves_inv;
      [|cbn [state set_pos set_byte set_state]; congruence] ].

Lemma receive_case_inv d c s :
  engine_inv d -> state d <> I2C_IDLE -> outcome_inv (receive_case hd rd d c s).
Proof.
  intros Hinv Hst. unfold receive_case. cbv zeta.
  split_ifs; cbn [outcome_inv]; inv_peel.
Qed.

Lemma transmit_case_inv d c s :
  engine_inv d -> outcome_inv (transmit_case d c s).
Proof.
  intros Hinv. unfold transmit_case. cbv zeta.
  split_ifs; cbn [outcome_inv]; inv_peel.
Qed.

Lemma dispatch_inv d c s :
  engine_inv d -> outcome_inv (dispatch hd rd d c s).
Proof.
  intros Hinv. unfold dispatch.
  destruct (state d) eqn:Est; cbv zeta.
  - split_ifs; cbn [outcome_inv]; inv_peel.
  - apply receive_case_inv; [assumption | congruence].
  - split_ifs; apply receive_case_inv; inv_peel;
      cbn [state set_state]; congruence.
  - split_ifs; apply transmit_case_inv; inv_peel.
  - apply transmit_case_inv; assumption.
  - split_ifs; cbn [outcome_inv]; inv_peel.
  - split_ifs; cbn [outcome_inv]; inv_peel.
  - split_ifs; cbn [outcome_inv]; inv_peel.
Qed.

Lemma latch_inv d c s : engine_inv d -> engine_inv (latch d c s).
Proof.
  intros Hinv. unfold latch. cbv zeta. split_ifs; inv_peel.
Qed.

(** Every call of [i2c_gpio_set] keeps the invariant. *)
Lemma set_preserves_inv d c s :
  engine_inv d -> engine_inv (i2c_gpio_set hd rd d c s).
Proof.
  intros Hinv. unfold i2c_gpio_set.
  pose proof (dispatch_inv d c s Hinv) as H.
  destruct (dispatch hd rd d c s); cbn [outcome_inv] in H.
  - apply latch_inv, H.
  - exact H.
Qed.

Lemma init_inv : engine_inv i2c_gpio_init.
Proof.
  unfold engine_inv. cbn. split; [lia|]. split; reflexivity.
Qed.

Lemma reachable_inv d : reachable hd rd d -> engine_inv d.
Proof.
  induction 1 as [|d c s _ IH].
  - apply init_inv.
  - apply set_preserves_inv, IH.
Qed.

Lemma reachable_feed es : forall d,
  reachable hd rd d -> reachable hd rd (feed hd rd d es).
Proof.
  induction es as [|[c s] es IH]; intros d Hd; cbn [feed].
  - exact Hd.
  - apply IH. constructor. exact Hd.
Qed.


(** ** Leaving a transaction *)

Lemma closed_from_ext d d1 d2 :
  i2c d2 = i2c d1 -> slave_addr d2 = slave_addr d1 ->
  slave_state d2 = slave_state d1 -> closed_from d d1 -> closed_from d d2.
Proof.
  unfold closed_from. intros -> -> ->. exact (fun H => H).
Qed.

Lemma stop_closed d : closed_from d (i2c_gpio_stop (set_state d I2C_IDLE)).
Proof.
  unfold closed_from, i2c_gpio_stop. cbv zeta.
  cbn [slave_addr set_state i2c slave_state set_transmit set_slave_state
       set_slave_addr].
  destruct (slave_addr d =? 255); cbn [negb]; repeat split; reflexivity.
Qed.

Lemma receive_case_closes d c s d' s' :
  state d <> I2C_IDLE ->
  receive_case hd rd d c s = Break d' s' ->
  state d' = I2C_IDLE -> closed_from d d'.
Proof.
  intros Hst. unfold receive_case. cbv zeta.
  split_ifs; intros H; inversion H; subst d';
    cbn [state set_state set_pos set_byte set_slave_state]; intros H';
    try congruence.
  apply stop_closed.
Qed.

(** [I2C_TRANSMIT] has no way back to idle. *)
Lemma transmit_case_stays d c s d' s' :
  transmit_case d c s = Break d' s' ->
  state d' = I2C_IDLE -> d' = d.
Proof.
  unfold transmit_case. cbv zeta.
  split_ifs; intros H; inversion H; subst d'; cbn [state set_state];
    intros H'; congruence.
Qed.

Lemma dispatch_closes d c s d' s' :
  state d <> I2C_IDLE ->
  dispatch hd rd d c s = Break d' s' ->
  state d' = I2C_IDLE -> closed_from d d'.
Proof.
  intros Hst. unfold dispatch. destruct (state d) eqn:Est; cbv zeta.
  - congruence.
  - apply receive_case_closes. congruence.
  - destruct (negb (is_set (scl d)) && is_set c); intros H H'.
    + apply closed_from_ext with (d1 := d'); try reflexivity.
      refine (receive_case_closes _ _ _ _ _ _ H H'); cbn [state set_state];
        discriminate.
    + refine (receive_case_closes _ _ _ _ _ _ H H'). congruence.
  - destruct (negb (is_set (scl d)) && is_set c) eqn:Er;
      cbn [scl last_sda set_state].
    + destruct (is_set (scl d)); [discriminate Er|]. cbn [andb].
      intros H H'. apply transmit_case_stays in H; [|exact H'].
      subst d'. discriminate H'.
    + destruct (is_set (scl d) && is_set c && negb (is_set (last_sda d))
                && is_set s);
        intros H H'; apply transmit_case_stays in H; try exact H'; subst d'.
      * apply stop_closed.
      * congruence.
  - intros H H'. apply transmit_case_stays in H; [|exact H']. congruence.
  - split_ifs; intros H; inversion H; subst d';
      cbn [state set_state set_pos]; intros H'; congruence.
  - split_ifs; intros H; inversion H; subst d';
      cbn [state set_state set_pos i2c_gpio_next_byte set_byte bus_call
           set_i2c]; intros H'; try congruence.
    apply stop_closed.
  - destruct (is_set (scl d) && is_set c); [|intros H; inversion H; congruence].
    destruct (is_set (last_sda d)) eqn:El, (is_set s) eqn:Es;
      cbn [negb andb last_sda set_pos i2c_gpio_next_byte set_byte bus_call
           set_i2c]; rewrite ?El; cbn [negb andb];
      intros H; inversion H; subst d';
      cbn [state set_pos i2c_gpio_next_byte set_byte bus_call set_i2c];
      intros H'; try congruence.
    apply stop_closed.
Qed.

Lemma stop_scl d : scl (i2c_gpio_stop d) = scl d.
Proof.
  unfold i2c_gpio_stop. cbv zeta.
  destruct (negb (slave_addr d =? 255)); reflexivity.
Qed.

Lemma transmit_case_return_state d c s d' :
  transmit_case d c s = Return d' ->
  state d' = state d /\ is_set (scl d) = false.
Proof.
  unfold transmit_case. cbv zeta.
  destruct (is_set (scl d)); cbn [negb andb].
  - split_ifs; discriminate.
  - destruct (is_set c); [|discriminate].
    intros H; inversion H. split; reflexivity.
Qed.

(** The early return of [I2C_TRANSMIT] never ends in [I2C_IDLE]. *)
Lemma dispatch_return_busy d c s d' :
  dispatch hd rd d c s = Return d' ->
  state d <> I2C_IDLE -> state d' <> I2C_IDLE.
Proof.
  unfold dispatch. destruct (state d) eqn:Est; cbv zeta;
    try (split_ifs; discriminate);
    try (intros H; now apply receive_case_breaks in H).
  - destruct (is_set (scl d)) eqn:Ec; cbn [negb andb].
    + split_ifs; intros H; apply transmit_case_return_state in H;
        destruct H as [_ H]; rewrite ?stop_scl in H; cbn [scl set_state] in H;
        congruence.
    + destruct (is_set c); cbn [scl set_state]; rewrite Ec; cbn [andb];
        intros H _; apply transmit_case_return_state in H;
        destruct H as [H _]; rewrite H; cbn [state set_state]; congruence.
  - intros H _. apply transmit_case_return_state in H.
    destruct H as [H _]. congruence.
Qed.

Lemma latch_frame d c s :
  i2c (latch d c s) = i2c d /\ slave_addr (latch d c s) = slave_addr d /\
  slave_state (latch d c s) = slave_state d /\ state (latch d c s) = state d.
Proof.
  unfold latch. cbv zeta. destruct (negb (is_set (scl d)) && is_set c);
    repeat split; reflexivity.
Qed.

(** Whenever a call takes the wire decoder back to [I2C_IDLE], the
    transaction is closed through [i2c_gpio_stop]. *)
Lemma set_closes d c s :
  state d <> I2C_IDLE ->
  state (i2c_gpio_set hd rd d c s) = I2C_IDLE ->
  closed_from d (i2c_gpio_set hd rd d c s).
Proof.
  intros Hst. unfold i2c_gpio_set.
  destruct (dispatch hd rd d c s) as [d' s'|d'] eqn:E.
  - destruct (latch_frame d' c s') as (H1 & H2 & H3 & H4).
    rewrite H4. intros H.
    apply closed_from_ext with (d1 := d'); try assumption.
    apply (dispatch_closes d c s d' s' Hst E H).
  - intros H. exfalso. exact (dispatch_return_busy d c s d' E Hst H).
Qed.

(** ** Addressing a device that is not there *)

(** Start condition, address byte naming an absent device,
    acknowledge clock, on an engine whose [transmit] is
    [TRANSMITTER_MASTER]. *)
Lemma feed_absent_header h c s sa rw ls p by' b :
  0 <= b < 256 ->
  hd h (Z.shiftr b 1) = false ->
  feed hd rd (mk_dev h c s I2C_IDLE SLAVE_IDLE sa rw ls p TRANSMITTER_MASTER by')
       (start_cond ++ send_byte b ++ ack_clock) =
  mk_dev (h ++ [HasDevice (Z.shiftr b 1)]) 0 0 I2C_RECEIVE_WAIT SLAVE_INVALID
         (Z.shiftr b 1) (Z.land b 1) 1 0 TRANSMITTER_MASTER b.
Proof.
  intros Hb Hdev. rewrite !feed_app, feed_start_cond.
  rewrite feed_send_byte by (auto; lia).
  dispatch_byte. rewrite Hdev. settle. rewrite feed_ack_clock.
  reflexivity.
Qed.

(** In [SLAVE_INVALID] every completed byte is dropped. *)
Lemma feed_send_bytes_invalid bs : forall h s sa rw ls by',
  Forall (fun b => 0 <= b < 256) bs ->
  feed hd rd (mk_dev h 0 s I2C_RECEIVE_WAIT SLAVE_INVALID sa rw ls 0
                     TRANSMITTER_MASTER by') (send_bytes bs) =
  mk_dev h 0 (match bs with [] => s | _ => 0 end) I2C_RECEIVE_WAIT
         SLAVE_INVALID sa rw (match bs with [] => ls | _ => 1 end) 0
         TRANSMITTER_MASTER (last bs by').
Proof.
  unfold send_bytes.
  induction bs as [|b bs IH]; intros h s sa rw ls by' Hbs; cbn [flat_map].
  - reflexivity.
  - inversion Hbs as [|? ? Hb Hbs']; subst.
    rewrite <- app_assoc, !feed_app, feed_send_byte by (auto; lia).
    dispatch_byte. rewrite feed_ack_clock.
    change (TRANSMITTER_MASTER =? TRANSMITTER_MASTER) with true. cbv iota.
    rewrite IH by assumption.
    destruct bs as [|b' bs]; [reflexivity|].
    rewrite (last_cons_default b' bs b by').
    change (last (b :: b' :: bs) by') with (last (b' :: bs) by'). reflexivity.
Qed.

Lemma feed_absent_txn h c s rw ls p by' a bs :
  0 <= a < 128 ->
  hd h a = false ->
  Forall (fun b => 0 <= b < 256) bs ->
  feed hd rd (mk_dev h c s I2C_IDLE SLAVE_IDLE 255 rw ls p TRANSMITTER_MASTER by')
       (write_txn a bs) =
  mk_dev (h ++ [HasDevice a; Stop a]) 1 0 I2C_IDLE SLAVE_IDLE 255 0 1 1
         TRANSMITTER_MASTER (shift_in (last bs (2 * a)) 0).
Proof.
  intros Ha Hdev Hbs. unfold write_txn.
  destruct (addr_byte_write a) as [Ea Erw].
  rewrite !app_assoc, feed_app, feed_app, <- !app_assoc.
  rewrite feed_absent_header by (rewrite ?Ea; auto; lia).
  rewrite Ea, Erw.
  rewrite feed_send_bytes_invalid by assumption.
  rewrite feed_stop_cond_receive by (auto; lia).
  replace (a =? 255) with false by (symmetry; apply Z.eqb_neq; lia).
  rewrite <- app_assoc. reflexivity.
Qed.

(** ** Repeated start *)

Lemma feed_restart_txn h c s rw ls p tr by' a1 bs1 a2 bs2 :
  0 <= a1 < 128 -> 0 <= a2 < 128 ->
  hd h a1 = true ->
  hd (h ++ HasDevice a1 :: Start a1 :: map (Write a1) bs1) a2 = true ->
  Forall (fun b => 0 <= b < 256) bs1 ->
  Forall (fun b => 0 <= b < 256) bs2 ->
  let d1 := feed hd rd (mk_dev h c s I2C_IDLE SLAVE_IDLE 255 rw ls p tr by')
              ((start_cond ++ send_byte (2 * a1) ++ ack_clock ++ send_bytes bs1)
               ++ restart_cond) in
  d1 = mk_dev (h ++ HasDevice a1 :: Start a1 :: map (Write a1) bs1) 0 1
              I2C_RECEIVE SLAVE_IDLE a1 0 0 0 TRANSMITTER_MASTER
              (shift_in (last bs1 (2 * a1)) 1) /\
  i2c (feed hd rd d1
         (send_byte (2 * a2) ++ ack_clock ++ send_bytes bs2 ++ stop_cond)) =
  i2c d1 ++ HasDevice a2 :: map (Write a2) bs2 ++ [Stop a2].
Proof.
  intros Ha1 Ha2 Hd1 Hd2 Hb1 Hb2 d1.
  assert (E1 : d1 =
    mk_dev (h ++ HasDevice a1 :: Start a1 :: map (Write a1) bs1) 0 1
           I2C_RECEIVE SLAVE_IDLE a1 0 0 0 TRANSMITTER_MASTER
           (shift_in (last bs1 (2 * a1)) 1)).
  { unfold d1. rewrite feed_app.
    rewrite !app_assoc, feed_app, <- !app_assoc.
    rewrite feed_write_header by assumption.
    rewrite feed_send_bytes by auto.
    rewrite feed_restart_cond by (auto; lia).
    rewrite <- app_assoc. reflexivity. }
  split; [exact E1|]. rewrite E1. cbn [i2c].
  set (h1 := h ++ HasDevice a1 :: Start a1 :: map (Write a1) bs1) in *.
  rewrite !feed_app, feed_send_byte by (auto; lia).
  dispatch_byte. destruct (addr_byte_write a2) as [-> ->]. rewrite Hd2.
  replace (a1 =? 255) with false by (symmetry; apply Z.eqb_neq; lia).
  settle. rewrite feed_ack_clock.
  change (2 =? TRANSMITTER_MASTER) with true. cbv iota.
  rewrite (feed_send_bytes a2 bs2) by auto.
  rewrite feed_stop_cond_receive by (auto; lia).
  replace (a2 =? 255) with false by (symmetry; apply Z.eqb_neq; lia).
  cbn [i2c]. rewrite <- !app_assoc. reflexivity.
Qed.

(** ** The acknowledge window *)

(** From the ninth rising clock edge on, the data line is held low. *)
Lemma ack_window_levels h s ss sa rw ls p tr by' :
  map (fun w => i2c_gpio_get_sda
                  (feed hd rd (mk_dev h 0 s I2C_ACKNOWLEDGE ss sa rw ls p tr by') w))
      ack_window = [s; 0; 0].
Proof.
  unfold ack_window. cbn [map feed].
  destruct (tr =? TRANSMITTER_MASTER) eqn:Htr; unfold TRANSMITTER_MASTER in Htr;
    step; step; step; observe; reflexivity.
Qed.

(** ** Start detection needs a remembered high data level *)

Lemma set_idle_data_low d c :
  state d = I2C_IDLE -> is_set (last_sda d) = false ->
  let d' := i2c_gpio_set hd rd d c 0 in
  state d' = I2C_IDLE /\ is_set (last_sda d') = false /\ i2c d' = i2c d.
Proof.
  intros Hst Hls. unfold i2c_gpio_set, dispatch. rewrite Hst, Hls.
  rewrite !andb_false_r. cbn [andb]. unfold latch. cbv zeta.
  destruct (negb (is_set (scl d)) && is_set c);
    cbn [state last_sda i2c set_scl set_last_sda set_sda]; auto.
Qed.

Lemma feed_idle_data_low es : forall d,
  state d = I2C_IDLE -> is_set (last_sda d) = false ->
  Forall (fun e => snd e = 0) es ->
  state (feed hd rd d es) = I2C_IDLE /\ i2c (feed hd rd d es) = i2c d.
Proof.
  induction es as [|[c s] es IH]; intros d Hst Hls Hes; cbn [feed].
  - auto.
  - inversion Hes as [|? ? Hs Hes']; subst. cbn [snd] in Hs. subst s.
    destruct (set_idle_data_low d c Hst Hls) as (H1 & H2 & H3).
    destruct (IH _ H1 H2 Hes') as [H4 H5]. split; congruence.
Qed.


(** An idle decoder makes no call on the bus: detecting a start
    condition opens nothing. *)
Lemma set_idle_no_call d c s :
  state d = I2C_IDLE -> i2c (i2c_gpio_set hd rd d c s) = i2c d.
Proof.
  intros Hst. unfold i2c_gpio_set, dispatch. rewrite Hst.
  destruct (is_set c && is_set (last_sda d) && negb (is_set s));
    unfold latch; cbv zeta; cbn [scl set_pos set_state];
    destruct (negb (is_set (scl d)) && is_set c); reflexivity.
Qed.

(** A repeated start, in any state of the engine that is receiving:
    only the bit counter and the byte state are reset. *)
Lemma set_repeated_start d c s :
  state d = I2C_RECEIVE \/ state d = I2C_RECEIVE_WAIT ->
  is_set (scl d) = true -> is_set c = true ->
  is_set (last_sda d) = true -> is_set s = false ->
  i2c_gpio_set hd rd d c s =
  set_scl (set_last_sda (set_slave_state (set_pos d 0) SLAVE_IDLE) s) c.
Proof.
  intros Hst Hc Hc' Hl Hs. unfold i2c_gpio_set, dispatch.
  destruct Hst as [-> | ->]; rewrite ?Hc; cbn [negb andb];
    unfold receive_case; rewrite Hc, Hc', Hl, Hs; cbn [negb andb];
    unfold latch; cbn [scl set_slave_state set_pos]; rewrite Hc;
    reflexivity.
Qed.

(** * The statements of the specification *)



(** C3, as amended.  A repeated start after the data bytes of a write
    makes no call on the bus and leaves the bit counter at 0 and the
    byte state at [SLAVE_IDLE]; the target address stays.  The address
    byte that follows is looked up with [i2c_has_device] and, the
    transaction being open already, no [i2c_start] is made for it,
    whether the address is new or not: the later [i2c_write] and
    [i2c_stop] calls simply carry the new address.  The reset itself
    holds in every receiving state: a call with the clock high before
    and after and the data line going from high to low changes the bit
    counter, the byte state and the two cached levels only. *)
Theorem restart_keeps_transaction d a1 bs1 a2 bs2 :
  bus_idle d ->
  0 <= a1 < 128 -> 0 <= a2 < 128 ->
  hd (i2c d) a1 = true ->
  hd (i2c d ++ HasDevice a1 :: Start a1 :: map (Write a1) bs1) a2 = true ->
  Forall (fun b => 0 <= b < 256) bs1 ->
  Forall (fun b => 0 <= b < 256) bs2 ->
  let first := start_cond ++ send_byte (2 * a1) ++ ack_clock ++ send_bytes bs1 in
  let d1 := feed hd rd d (first ++ restart_cond) in
  (i2c d1 = i2c (feed hd rd d first) /\
   i2c d1 = i2c d ++ HasDevice a1 :: Start a1 :: map (Write a1) bs1 /\
   pos d1 = 0 /\ slave_state d1 = SLAVE_IDLE /\ state d1 = I2C_RECEIVE /\
   slave_addr d1 = a1) /\
  i2c (feed hd rd d1
         (send_byte (2 * a2) ++ ack_clock ++ send_bytes bs2 ++ stop_cond)) =
    i2c d1 ++ HasDevice a2 :: map (Write a2) bs2 ++ [Stop a2] /\
  (forall e c s,
     state e = I2C_RECEIVE \/ state e = I2C_RECEIVE_WAIT ->
     is_set (scl e) = true -> is_set c = true ->
     is_set (last_sda e) = true -> is_set s = false ->
     i2c_gpio_set hd rd e c s =
     set_scl (set_last_sda (set_slave_state (set_pos e 0) SLAVE_IDLE) s) c).
Proof.
  destruct d as [h c s st ss sa rw ls p tr b].
  intros (Hst & Hss & Hsa) Ha1 Ha2 Hd1 Hd2 Hb1 Hb2 first d1.
  cbn [state slave_state slave_addr] in *. subst st ss sa. cbn [i2c] in *.
  destruct (feed_restart_txn h c s rw ls p tr b a1 bs1 a2 bs2
              Ha1 Ha2 Hd1 Hd2 Hb1 Hb2) as [E1 E2].
  fold first in E1, E2. fold d1 in E1, E2.
  split; [|split; [exact E2 | apply set_repeated_start]].
  rewrite E1. cbn [i2c pos slave_state state slave_addr].
  repeat split. unfold first.
  rewrite !app_assoc, feed_app, <- !app_assoc.
  rewrite feed_write_header by assumption.
  rewrite feed_send_bytes by auto.
  cbn [i2c]. rewrite <- app_assoc. reflexivity.
Qed.


(** C4, as amended.  Start, address byte 0xA2 (address 0x51, write),
    data byte 0x42, stop, with a device at 0x51, on a fresh engine:
    the bus sees the look-up of 0x51, [i2c_start] for 0x51,
    [i2c_write] of 0x42 to 0x51 and [i2c_stop] for 0x51, and
    [i2c_gpio_get_sda] answers 0 (pulled low) after each edge of the
    ninth clock pulse of both bytes. *)
Theorem example_write_0x42 :
  hd [] 81 = true ->
  let w_addr := start_cond ++ send_byte 162 in
  let w_data := w_addr ++ ack_clock ++ send_byte 66 in
  i2c (feed hd rd i2c_gpio_init (w_data ++ ack_clock ++ stop_cond)) =
    [HasDevice 81; Start 81; Write 81 66; Stop 81] /\
  Forall (fun q =>
            i2c_gpio_get_sda (feed hd rd i2c_gpio_init (w_addr ++ q)) = 0 /\
            i2c_gpio_get_sda (feed hd rd i2c_gpio_init (w_data ++ q)) = 0)
         ack_window.
Proof.
  intros Hdev w_addr w_data.
  assert (Ea : feed hd rd i2c_gpio_init w_addr =
               mk_dev [HasDevice 81; Start 81] 0 0 I2C_ACKNOWLEDGE
                      SLAVE_RECEIVEADDR 81 0 0 8 TRANSMITTER_MASTER 162).
  { unfold w_addr, i2c_gpio_init. rewrite feed_app, feed_start_cond.
    rewrite feed_send_byte by (auto; lia).
    dispatch_byte. change (Z.shiftr 162 1) with 81.
    change (Z.land 162 1) with 0. rewrite Hdev. settle. reflexivity. }
  assert (Ed : feed hd rd i2c_gpio_init w_data =
               mk_dev [HasDevice 81; Start 81; Write 81 66] 0 0
                      I2C_ACKNOWLEDGE SLAVE_RECEIVEDATA 81 0 0 8
                      TRANSMITTER_MASTER 66).
  { unfold w_data. rewrite !feed_app, Ea, feed_ack_clock.
    change (TRANSMITTER_MASTER =? TRANSMITTER_MASTER) with true. cbv iota.
    rewrite feed_send_byte by (auto; lia).
    dispatch_byte. settle. reflexivity. }
  split.
  - rewrite !feed_app, Ed, feed_ack_clock.
    change (TRANSMITTER_MASTER =? TRANSMITTER_MASTER) with true. cbv iota.
    rewrite feed_stop_cond_receive by (auto; lia). reflexivity.
  - assert (Wa := ack_window_levels [HasDevice 81; Start 81] 0
                    SLAVE_RECEIVEADDR 81 0 0 8 TRANSMITTER_MASTER 162).
    assert (Wd := ack_window_levels [HasDevice 81; Start 81; Write 81 66] 0
                    SLAVE_RECEIVEDATA 81 0 0 8 TRANSMITTER_MASTER 66).
    rewrite <- Ea in Wa. rewrite <- Ed in Wd.
    rewrite Forall_forall. intros q Hq.
    rewrite !feed_app. split.
    + apply (in_map (fun w => i2c_gpio_get_sda
                               (feed hd rd (feed hd rd i2c_gpio_init w_addr) w)))
        in Hq.
      rewrite Wa in Hq. cbn [In] in Hq. intuition congruence.
    + apply (in_map (fun w => i2c_gpio_get_sda
                               (feed hd rd (feed hd rd i2c_gpio_init w_data) w)))
        in Hq.
      rewrite Wd in Hq. cbn [In] in Hq. intuition congruence.
Qed.

(** C6, as amended.  In every reachable state: if the target address
    is the sentinel 0xff then no transaction is open on the bus; if
    the wire decoder is idle then the target address is the sentinel
    and no transaction is open; and a call that takes the decoder back
    to idle closes the transaction, with one [i2c_stop] for the target
    address unless that was the sentinel.  An idle decoder makes no
    call on the bus, so detecting a start condition opens nothing. *)
Theorem sentinel_means_no_transaction d :
  reachable hd rd d ->
  (slave_addr d = 255 -> txn_open (i2c d) = false) /\
  (state d = I2C_IDLE -> slave_addr d = 255 /\ txn_open (i2c d) = false) /\
  (forall c s,
     state d <> I2C_IDLE ->
     state (i2c_gpio_set hd rd d c s) = I2C_IDLE ->
     closed_from d (i2c_gpio_set hd rd d c s) /\
     txn_open (i2c (i2c_gpio_set hd rd d c s)) = false) /\
  (forall c s,
     state d = I2C_IDLE ->
     i2c (i2c_gpio_set hd rd d c s) = i2c d).
Proof.
  intros Hr. destruct (reachable_inv d Hr) as (_ & Hidle & Hopen).
  split; [exact Hopen|]. split; [auto|]. split.
  - intros c s Hst Hst'. split; [apply set_closes; assumption|].
    assert (Hr' : reachable hd rd (i2c_gpio_set hd rd d c s))
      by (constructor; exact Hr).
    destruct (reachable_inv _ Hr') as (_ & Hidle' & Hopen'). auto.
  - intros c s. apply set_idle_no_call.
Qed.

(** C7.  [i2c_gpio_get_sda] answers the latched data level in
    [I2C_TRANSMIT] and [I2C_ACKNOWLEDGE], 0 in [I2C_RECEIVE_WAIT] and
    1 in every other wire state; [i2c_gpio_get_scl] answers the clock
    field, which after any [i2c_gpio_set] call is the clock level that
    call passed in. *)
Theorem output_queries d :
  i2c_gpio_get_sda d =
    match state d with
    | I2C_TRANSMIT | I2C_ACKNOWLEDGE => sda d
    | I2C_RECEIVE_WAIT => 0
    | _ => 1
    end /\
  i2c_gpio_get_scl d = scl d /\
  (forall c s, i2c_gpio_get_scl (i2c_gpio_set hd rd d c s) = c).
Proof.
  split; [|split].
  - unfold i2c_gpio_get_sda. destruct (state d); reflexivity.
  - reflexivity.
  - intros c s. apply set_scl_sampled.
Qed.








(** The path after a stop.  On an engine with no transaction in
    progress whose [transmit] is [TRANSMITTER_MASTER], an address byte
    naming an absent device makes that address the target address with
    byte state [SLAVE_INVALID] and no [i2c_start]; the data bytes are
    dropped, and the stop condition calls [i2c_stop] for the absent
    address, so that the bus sees an [i2c_stop] while no transaction
    is open.  More generally any call that takes the decoder of any
    engine with that target address back to idle makes this
    [i2c_stop] call. *)
Theorem absent_address_stop_call d a bs :
  bus_idle d ->
  transmit d = TRANSMITTER_MASTER ->
  0 <= a < 128 ->
  hd (i2c d) a = false ->
  Forall (fun b => 0 <= b < 256) bs ->
  let d1 := feed hd rd d
              (start_cond ++ send_byte (2 * a) ++ ack_clock ++ send_bytes bs) in
  (slave_state d1 = SLAVE_INVALID /\ slave_addr d1 = a /\
   i2c d1 = i2c d ++ [HasDevice a]) /\
  i2c (feed hd rd d1 stop_cond) = i2c d ++ [HasDevice a; Stop a] /\
  (txn_open (i2c d) = false -> txn_open (i2c d1) = false) /\
  (forall d2 c s,
     slave_addr d2 = a -> state d2 <> I2C_IDLE ->
     state (i2c_gpio_set hd rd d2 c s) = I2C_IDLE ->
     i2c (i2c_gpio_set hd rd d2 c s) = i2c d2 ++ [Stop a]).
Proof.
  destruct d as [h c s st ss sa rw ls p tr b].
  intros (Hst & Hss & Hsa) Htr Ha Hdev Hbs d1.
  cbn [state slave_state slave_addr transmit] in *. subst st ss sa tr.
  cbn [i2c] in *.
  destruct (addr_byte_write a) as [Ea Erw].
  assert (E1 : d1 = mk_dev (h ++ [HasDevice a]) 0
                      (match bs with [] => 0 | _ => 0 end) I2C_RECEIVE_WAIT
                      SLAVE_INVALID a 0 (match bs with [] => 1 | _ => 1 end) 0
                      TRANSMITTER_MASTER (last bs (2 * a))).
  { unfold d1. rewrite !app_assoc, feed_app, <- !app_assoc.
    rewrite feed_absent_header by (rewrite ?Ea; auto; lia).
    rewrite Ea, Erw. rewrite feed_send_bytes_invalid by assumption.
    reflexivity. }
  rewrite E1. cbn [slave_state slave_addr i2c].
  split; [repeat split|]. split; [|split].
  - rewrite feed_stop_cond_receive by (auto; lia).
    replace (a =? 255) with false by (symmetry; apply Z.eqb_neq; lia).
    cbn [i2c]. rewrite <- app_assoc. reflexivity.
  - intros Ho. rewrite txn_open_app. exact Ho.
  - intros d2 c2 s2 Hsa Hbusy Hidle.
    destruct (set_closes d2 c2 s2 Hbusy Hidle) as (Hlog & _).
    rewrite Hlog, Hsa.
    replace (a =? 255) with false by (symmetry; apply Z.eqb_neq; lia).
    reflexivity.
Qed.

(** Start condition, address byte naming an absent device and
    acknowledge clock, whatever [transmit] holds. *)
Lemma feed_absent_header_any h c s sa rw ls p tr by' b :
  0 <= b < 256 ->
  hd h (Z.shiftr b 1) = false ->
  feed hd rd (mk_dev h c s I2C_IDLE SLAVE_IDLE sa rw ls p tr by')
       (start_cond ++ send_byte b ++ ack_clock) =
  mk_dev (h ++ [HasDevice (Z.shiftr b 1)]) 0 0
         (if tr =? TRANSMITTER_MASTER then I2C_RECEIVE_WAIT else I2C_TRANSMIT)
         SLAVE_INVALID (Z.shiftr b 1) (Z.land b 1) 1 0 tr b.
Proof.
  intros Hb Hdev. rewrite !feed_app, feed_start_cond.
  rewrite feed_send_byte by (auto; lia).
  dispatch_byte. rewrite Hdev. settle. rewrite feed_ack_clock.
  reflexivity.
Qed.

(** A stop condition met in [I2C_TRANSMIT]: its rising clock edge
    puts out a bit, the data rise is not looked at. *)
Lemma feed_stop_cond_transmit h s ss sa rw ls tr by' :
  feed hd rd (mk_dev h 0 s I2C_TRANSMIT ss sa rw ls 0 tr by') stop_cond =
  mk_dev h 1 (msb by') I2C_TRANSMIT ss sa rw 1 1 tr (shl1 by').
Proof.
  unfold stop_cond. cbn [feed]. step. step. step. reflexivity.
Qed.

(** C9.  The claim fails on an engine as [i2c_gpio_init] leaves it,
    for every absent address: the address byte makes that address the
    target address with byte state [SLAVE_INVALID], but [transmit] is
    still 0, so the acknowledge clock leads to [I2C_TRANSMIT], where
    the stop condition is not seen: no [i2c_stop] is called and the
    engine keeps the target address.  On an engine that has been
    through a stop ([used_engine]) the same waveform does what the
    claim says: the bus sees the look-up and then [i2c_stop] for the
    absent address, with no [i2c_start]. *)
Theorem fresh_engine_stop_missed a :
  0 <= a < 128 ->
  hd [] a = false ->
  let header := start_cond ++ send_byte (2 * a) ++ ack_clock in
  let d1 := feed hd rd i2c_gpio_init header in
  let d2 := feed hd rd d1 stop_cond in
  transmit i2c_gpio_init = 0 /\
  (slave_state d1 = SLAVE_INVALID /\ slave_addr d1 = a /\
   i2c d1 = [HasDevice a] /\ state d1 = I2C_TRANSMIT) /\
  (i2c d2 = [HasDevice a] /\ ~ In (Stop a) (i2c d2) /\
   state d2 = I2C_TRANSMIT /\ slave_state d2 = SLAVE_INVALID /\
   slave_addr d2 = a) /\
  (transmit used_engine = TRANSMITTER_MASTER /\
   i2c (feed hd rd used_engine (header ++ stop_cond)) =
     [HasDevice a; Stop a] /\
   bus_idle (feed hd rd used_engine (header ++ stop_cond))).
Proof.
  intros Ha Hdev header d1 d2.
  destruct (addr_byte_write a) as [Ea Erw].
  assert (E1 : d1 = mk_dev [HasDevice a] 0 0 I2C_TRANSMIT SLAVE_INVALID a 0
                           1 0 0 (2 * a)).
  { unfold d1, header, i2c_gpio_init.
    rewrite feed_absent_header_any by (rewrite ?Ea; auto; lia).
    rewrite Ea, Erw. reflexivity. }
  assert (E2 : d2 = mk_dev [HasDevice a] 1 (msb (2 * a)) I2C_TRANSMIT
                           SLAVE_INVALID a 0 1 1 0 (shl1 (2 * a))).
  { unfold d2. rewrite E1. apply feed_stop_cond_transmit. }
  split; [reflexivity|]. split; [rewrite E1; repeat split|].
  split.
  - rewrite E2. cbn [i2c state slave_state slave_addr]. repeat split.
    intros [H | []]. discriminate H.
  - split; [reflexivity|]. unfold header, used_engine.
    rewrite feed_app.
    rewrite feed_absent_header_any by (rewrite ?Ea; auto; lia).
    rewrite Ea, Erw. change (TRANSMITTER_MASTER =? TRANSMITTER_MASTER) with true.
    cbv iota. rewrite feed_stop_cond_receive by (auto; lia).
    replace (a =? 255) with false by (symmetry; apply Z.eqb_neq; lia).
    cbn [i2c app]. repeat split.
Qed.

(** C10.  [i2c_gpio_init] leaves the remembered data level at 0 while
    both line levels are 1.  A first call with the clock high and the
    data line low is therefore no start condition, and as long as no
    call has passed a high data level the decoder stays idle and makes
    no call on the bus; once a call has sampled the data line high,
    the same call is a start condition. *)
Theorem start_needs_sampled_high es :
  Forall (fun e => snd e = 0) es ->
  (last_sda i2c_gpio_init = 0 /\ scl i2c_gpio_init = 1 /\
   sda i2c_gpio_init = 1) /\
  state (i2c_gpio_set hd rd i2c_gpio_init 1 0) = I2C_IDLE /\
  (state (feed hd rd i2c_gpio_init es) = I2C_IDLE /\
   i2c (feed hd rd i2c_gpio_init es) = []) /\
  state (feed hd rd i2c_gpio_init [(1, 1); (1, 0)]) = I2C_RECEIVE.
Proof.
  intros Hes. split; [repeat split|]. split; [reflexivity|]. split.
  - apply feed_idle_data_low; [reflexivity | reflexivity | exact Hes].
  - reflexivity.
Qed.

(** * Further properties of the code *)

(** ** Well-formed states are kept *)

Lemma land_1_cases x :
  (Z.land x 1 = 0 /\ is_set (Z.land x 1) = false) \/
  (Z.land x 1 = 1 /\ is_set (Z.land x 1) = true).
Proof.
  assert (E : Z.land x 1 = x mod 2).
  { change 1 with (Z.ones 1). rewrite Z.land_ones by lia. reflexivity. }
  rewrite E.
  assert (H : x mod 2 = 0 \/ x mod 2 = 1)
    by (pose proof (Z.mod_pos_bound x 2 ltac:(lia)); lia).
  destruct H as [-> | ->]; [left | right]; split; reflexivity.
Qed.

(** [byte_part] only looks at six fields. *)
Lemma byte_part_ext d d' :
  byte d' = byte d -> slave_rw d' = slave_rw d ->
  slave_addr d' = slave_addr d -> transmit d' = transmit d ->
  i2c d' = i2c d -> slave_state d' = slave_state d ->
  byte_part d -> byte_part d'.
Proof.
  unfold byte_part. intros -> -> -> -> -> ->. exact (fun H => H).
Qed.

Lemma Forall_call_snoc h c :
  Forall call_ok h -> call_ok c -> Forall call_ok (h ++ [c]).
Proof.
  intros Hh Hc. apply Forall_app. split; [exact Hh|]. constructor; auto.
Qed.

Ltac bp_solve :=
  cbn [i2c scl sda state slave_state slave_addr slave_rw last_sda pos
       transmit byte byte_wf call_ok] in *;
  unfold TRANSMITTER_SLAVE, TRANSMITTER_MASTER in *;
  repeat match goal with
  | |- 0 <= u8 _ < 256 => apply u8_range
  | |- 0 <= shift_in _ _ < 256 => apply shift_in_range
  | |- 0 <= shl1 _ < 256 => apply shl1_range
  | |- Forall call_ok (_ ++ [_]) => apply Forall_call_snoc; cbn [call_ok]
  | |- _ /\ _ => split
  end;
  first [assumption | discriminate | lia | tauto | congruence].

Lemma write_byte_part d :
  byte_part d ->
  byte_part (i2c_gpio_write hd rd d) /\
  slave_state (i2c_gpio_write hd rd d) <> SLAVE_IDLE.
Proof.
  destruct d as [h c s st ss sa rw ls p tr b]. unfold byte_part.
  cbn [i2c slave_state slave_addr slave_rw transmit byte].
  intros (Hb & Hrw & Hsa & Htr & Hlog & Hwf).
  pose proof (addr_of_byte b Hb) as Ha.
  dispatch_byte.
  destruct ss; cbn [byte_wf] in Hwf.
  - destruct (land_1_cases b) as [[E1 E2] | [E1 E2]];
      destruct (hd h (Z.shiftr b 1)), (sa =? 255); cbn [negb];
      rewrite ?E2, ?E1; bp_solve.
  - destruct Hwf as (H1 & H2 & H3). rewrite H2. settle. bp_solve.
  - bp_solve.
  - bp_solve.
  - bp_solve.
Qed.

Lemma stop_byte_part d :
  byte_part d ->
  byte_part (i2c_gpio_stop d) /\
  slave_state (i2c_gpio_stop d) = SLAVE_IDLE /\
  slave_addr (i2c_gpio_stop d) = 255.
Proof.
  destruct d as [h c s st ss sa rw ls p tr b]. unfold byte_part.
  cbn [i2c slave_state slave_addr slave_rw transmit byte].
  intros (Hb & Hrw & Hsa & Htr & Hlog & Hwf).
  cbv beta iota zeta delta
    [i2c_gpio_stop bus_call set_i2c set_slave_state set_slave_addr
     set_transmit i2c scl sda state slave_state slave_addr slave_rw last_sda
     pos transmit byte].
  destruct (Z.eqb_spec sa 255); cbn [negb]; bp_solve.
Qed.

Lemma next_byte_byte_part d :
  byte_part d -> slave_addr d <> 255 ->
  byte_part (i2c_gpio_next_byte rd d).
Proof.
  destruct d as [h c s st ss sa rw ls p tr b]. unfold byte_part.
  cbn [i2c slave_state slave_addr slave_rw transmit byte].
  intros (Hb & Hrw & Hsa & Htr & Hlog & Hwf) Hne.
  cbv beta iota zeta delta
    [i2c_gpio_next_byte bus_call set_i2c set_byte
     i2c scl sda state slave_state slave_addr slave_rw last_sda
     pos transmit byte].
  pose proof (u8_range (rd h sa)).
  bp_solve.
Qed.

(** In every byte state but [SLAVE_IDLE] there is a target address. *)
Lemma byte_part_addr d :
  byte_part d -> slave_state d <> SLAVE_IDLE -> slave_addr d <> 255.
Proof.
  unfold byte_part. intros (_ & _ & _ & _ & _ & Hwf) Hss.
  destruct (slave_state d); cbn [byte_wf] in Hwf; tauto.
Qed.

Lemma stop_frame d :
  state (i2c_gpio_stop d) = state d /\ pos (i2c_gpio_stop d) = pos d /\
  transmit (i2c_gpio_stop d) = TRANSMITTER_MASTER.
Proof.
  unfold i2c_gpio_stop. cbv zeta.
  destruct (negb (slave_addr d =? 255)); repeat split.
Qed.

(** Finish a goal about fields once the calls of the byte dispatcher
    have been named. *)
Ltac wf_norm :=
  repeat progress
    (cbn [i2c scl sda state slave_state slave_addr slave_rw last_sda pos
          transmit byte set_i2c set_scl set_sda set_state set_slave_state
          set_slave_addr set_slave_rw set_last_sda set_pos set_transmit
          set_byte i2c_gpio_next_byte bus_call wire_wf byte_wf] in *;
     repeat match goal with
     | H : _ /\ _ |- _ => destruct H
     | H : False |- _ => destruct H
     end;
     repeat match goal with
     | H : state _ = _ |- _ => rewrite H in *
     | H : slave_state _ = _ |- _ => rewrite H in *
     end).

Ltac wf_solve :=
  unfold outcome_wf, engine_wf, byte_part, wire_part in *;
  wf_norm;
  repeat match goal with
  | H : byte_wf ?ss _ _ _ |- _ =>
      tryif is_constructor ss then fail else (destruct ss eqn:?; wf_norm)
  end;
  unfold TRANSMITTER_SLAVE, TRANSMITTER_MASTER in *;
  repeat match goal with
  | |- 0 <= u8 _ < 256 => apply u8_range
  | |- 0 <= shift_in _ _ < 256 => apply shift_in_range
  | |- 0 <= shl1 _ < 256 => apply shl1_range
  | |- Forall call_ok (_ ++ [_]) => apply Forall_call_snoc; cbn [call_ok]
  | |- _ /\ _ => split
  end;
  first [assumption | discriminate | lia | tauto | congruence].

Lemma receive_case_wf d c s :
  engine_wf d ->
  state d = I2C_RECEIVE \/
  (state d = I2C_RECEIVE_WAIT /\ negb (is_set (scl d)) && is_set c = false) ->
  outcome_wf c (receive_case hd rd d c s).
Proof.
  intros Hwf Hst. unfold receive_case. cbv zeta.
  destruct (negb (is_set (scl d)) && is_set c) eqn:Erise.
  - destruct Hst as [Hst | [_ Hst]]; [|discriminate Hst].
    change (pos (set_byte d (shift_in (byte d) s))) with (pos d).
    set (X := set_pos (set_byte d (shift_in (byte d) s)) (u8 (pos d + 1))).
    change (pos X) with (u8 (pos d + 1)).
    assert (Hp : u8 (pos d + 1) = pos d + 1).
    { apply u8_small. unfold engine_wf, wire_part in Hwf. lia. }
    destruct (Z.eqb_spec (u8 (pos d + 1)) 8) as [E8 | E8].
    + assert (HX : byte_part X).
      { unfold engine_wf in Hwf. destruct Hwf as [HB _]. revert HB.
        unfold X, byte_part.
        cbn [i2c slave_state slave_addr slave_rw transmit byte set_pos set_byte].
        pose proof (shift_in_range (byte d) s). tauto. }
      destruct (write_byte_part X HX) as [HW Hss].
      pose proof (write_frame X) as F. cbv zeta in F.
      destruct F as (Fc & Fs & Fst & Fls & Fp).
      remember (i2c_gpio_write hd rd X) as w.
      cbn [outcome_wf]. unfold engine_wf. split.
      * revert HW. apply byte_part_ext; reflexivity.
      * unfold wire_part. cbn [pos state scl slave_state slave_addr transmit
                               set_scl set_state wire_wf].
        rewrite Fp. unfold X. cbn [pos set_pos]. split; [lia | exact Hss].
    + unfold X. wf_solve.
  - destruct (is_set (scl d) && is_set c);
      [destruct (is_set s && negb (is_set (last_sda d)));
       [|destruct (negb (is_set s) && is_set (last_sda d))]|].
    + unfold engine_wf in Hwf. destruct Hwf as [HB HW].
      assert (HX : byte_part (set_state d I2C_IDLE))
        by (revert HB; apply byte_part_ext; reflexivity).
      destruct (stop_byte_part _ HX) as (HS & Hss & Hsa).
      destruct (stop_frame (set_state d I2C_IDLE)) as (Fst & Fp & Ftr).
      remember (i2c_gpio_stop (set_state d I2C_IDLE)) as w.
      cbn [state pos set_state] in Fst, Fp.
      cbn [outcome_wf]. unfold engine_wf. split.
      * revert HS. apply byte_part_ext; reflexivity.
      * unfold wire_part in *.
        cbn [pos state scl slave_state slave_addr transmit set_scl].
        rewrite Fst, Fp. cbn [wire_wf]. tauto.
    + destruct Hst as [Hst | [Hst _]]; wf_solve.
    + destruct Hst as [Hst | [Hst _]]; wf_solve.
    + destruct Hst as [Hst | [Hst _]]; wf_solve.
Qed.

(** [engine_wf] does not look at the data levels. *)
Lemma engine_wf_ext d d' :
  i2c d' = i2c d -> scl d' = scl d -> state d' = state d ->
  slave_state d' = slave_state d -> slave_addr d' = slave_addr d ->
  slave_rw d' = slave_rw d -> pos d' = pos d -> transmit d' = transmit d ->
  byte d' = byte d -> engine_wf d -> engine_wf d'.
Proof.
  unfold engine_wf, byte_part, wire_part.
  intros -> -> -> -> -> -> -> -> ->. exact (fun H => H).
Qed.

Lemma stop_wf d c :
  engine_wf d -> engine_wf (set_scl (i2c_gpio_stop (set_state d I2C_IDLE)) c).
Proof.
  intros Hwf. unfold engine_wf in Hwf. destruct Hwf as [HB HW].
  assert (HX : byte_part (set_state d I2C_IDLE))
    by (revert HB; apply byte_part_ext; reflexivity).
  destruct (stop_byte_part _ HX) as (HS & Hss & Hsa).
  destruct (stop_frame (set_state d I2C_IDLE)) as (Fst & Fp & Ftr).
  remember (i2c_gpio_stop (set_state d I2C_IDLE)) as w.
  cbn [state pos set_state] in Fst, Fp.
  unfold engine_wf. split.
  - revert HS. apply byte_part_ext; reflexivity.
  - unfold wire_part in *.
    cbn [pos state scl slave_state slave_addr transmit set_scl].
    rewrite Fst, Fp. cbn [wire_wf]. tauto.
Qed.

Lemma transmit_case_wf d c s :
  engine_wf d ->
  state d = I2C_TRANSMIT \/
  (state d = I2C_TRANSMIT_START /\
   negb (is_set (scl d)) && is_set c = false) \/
  (state d = I2C_IDLE /\ is_set (scl d) = true /\ is_set c = true) ->
  outcome_wf c (transmit_case d c s).
Proof.
  intros Hwf Hst. unfold transmit_case. cbv zeta.
  change (pos (set_byte (set_sda (set_scl d c) (msb (byte (set_scl d c))))
                 (shl1 (byte (set_sda (set_scl d c) (msb (byte (set_scl d c))))))))
    with (pos d).
  assert (Hp : pos d <= 7 -> u8 (pos d + 1) = pos d + 1).
  { intros H. apply u8_small. unfold engine_wf, wire_part in Hwf. lia. }
  destruct (is_set (scl d)) eqn:Ec, (is_set c) eqn:Ec',
           (Z.eqb_spec (pos d) 8) as [E8 | E8];
    cbn [negb andb];
    destruct Hst as [Hst | [(Hst & Hr) | (Hst & Hc & Hc')]];
    try discriminate;
    try (rewrite Hp by (unfold engine_wf, wire_part in Hwf; lia));
    try solve [wf_solve].
  all: unfold engine_wf, wire_part in Hwf; rewrite Hst in Hwf;
    cbn [wire_wf] in Hwf; rewrite Ec in Hwf; exfalso;
    destruct Hwf as (_ & _ & _ & _ & H); specialize (H E8); discriminate.
Qed.

Lemma dispatch_wf d c s :
  engine_wf d -> outcome_wf c (dispatch hd rd d c s).
Proof.
  intros Hwf. unfold dispatch. destruct (state d) eqn:Est; cbv zeta.
  - destruct (is_set c && is_set (last_sda d) && negb (is_set s)); wf_solve.
  - apply receive_case_wf; auto.
  - destruct (negb (is_set (scl d)) && is_set c) eqn:Er.
    + apply receive_case_wf; [wf_solve | left; reflexivity].
    + apply receive_case_wf; auto.
  - destruct (negb (is_set (scl d)) && is_set c) eqn:Er;
      cbn [scl last_sda set_state].
    + destruct (is_set (scl d)) eqn:Ec; [discriminate Er|].
      cbn [andb]. apply transmit_case_wf;
        [wf_solve | left; reflexivity].
    + destruct (is_set (scl d) && is_set c && negb (is_set (last_sda d))
                && is_set s) eqn:Ex.
      * destruct (is_set (scl d)) eqn:Ec; [|discriminate Ex].
        destruct (is_set c) eqn:Ec'; [|discriminate Ex].
        apply transmit_case_wf.
        -- apply (engine_wf_ext (set_scl (i2c_gpio_stop (set_state d I2C_IDLE))
                                         (scl d)));
             try reflexivity;
             [cbn [scl set_scl]; rewrite stop_scl; reflexivity|].
           apply stop_wf, Hwf.
        -- right. right. rewrite stop_scl.
           destruct (stop_frame (set_state d I2C_IDLE)) as (Fst & _).
           rewrite Fst. cbn [state scl set_state]. auto.
      * apply transmit_case_wf; auto.
  - apply transmit_case_wf; auto.
  - destruct (negb (is_set (scl d)) && is_set c); [|wf_solve].
    destruct (Z.eqb_spec (transmit (set_pos d 0)) TRANSMITTER_MASTER)
      as [E | E]; cbn [transmit set_pos] in E; wf_solve.
  - destruct (negb (is_set (scl d)) && is_set c); [|wf_solve].
    destruct (is_set s); [apply stop_wf, Hwf | wf_solve].
  - exfalso. unfold engine_wf, wire_part in Hwf. rewrite Est in Hwf.
    cbn [wire_wf] in Hwf. tauto.
Qed.

(** Every call of [i2c_gpio_set] keeps a state well formed. *)
Lemma set_preserves_wf d c s :
  engine_wf d -> engine_wf (i2c_gpio_set hd rd d c s).
Proof.
  intros Hwf. unfold i2c_gpio_set.
  pose proof (dispatch_wf d c s Hwf) as H.
  destruct (dispatch hd rd d c s) as [d' s' | d']; cbn [outcome_wf] in H.
  - revert H. apply engine_wf_ext; unfold latch; cbv zeta;
      destruct (negb (is_set (scl d')) && is_set c); reflexivity.
  - exact H.
Qed.

Lemma init_wf : engine_wf i2c_gpio_init.
Proof.
  unfold engine_wf, byte_part, wire_part. cbn.
  unfold TRANSMITTER_SLAVE. repeat split; auto; try lia; discriminate.
Qed.

Lemma reachable_wf d : reachable hd rd d -> engine_wf d.
Proof.
  induction 1 as [|d c s _ IH].
  - apply init_wf.
  - apply set_preserves_wf, IH.
Qed.

(** ** What holds in every reachable state *)

(** X1.  In every reachable state the bit counter is between 0 and 8;
    it is at most 7 while a byte is being received, 0 in
    [I2C_RECEIVE_WAIT] and [I2C_TRANSMIT_START], and 8 in
    [I2C_TRANSACKNOWLEDGE]. *)
Theorem bit_counter_bounded d :
  reachable hd rd d ->
  0 <= pos d <= 8 /\
  (state d = I2C_RECEIVE -> pos d <= 7) /\
  (state d = I2C_RECEIVE_WAIT \/ state d = I2C_TRANSMIT_START -> pos d = 0) /\
  (state d = I2C_TRANSACKNOWLEDGE -> pos d = 8).
Proof.
  intros Hr. destruct (reachable_wf d Hr) as [_ [Hp Hw]].
  split; [exact Hp|].
  destruct (state d); cbn [wire_wf] in Hw;
    (split; [|split]); intros H; try discriminate H;
    try (destruct H as [H | H]; try discriminate H); tauto.
Qed.

(** X2.  No reachable state has the wire state [I2C_TRANSMIT_WAIT]:
    nothing assigns it, so its [case] is never run. *)
Theorem transmit_wait_unreachable d :
  reachable hd rd d -> state d <> I2C_TRANSMIT_WAIT.
Proof.
  intros Hr Hst. destruct (reachable_wf d Hr) as [_ [_ Hw]].
  rewrite Hst in Hw. exact Hw.
Qed.

(** X3.  Everything the engine has passed to the bus is in range:
    every address is a 7-bit address (never the sentinel 0xff) and
    every byte written or read is below 256. *)
Theorem bus_arguments_in_range d :
  reachable hd rd d -> Forall call_ok (i2c d).
Proof.
  intros Hr. destruct (reachable_wf d Hr) as [HB _].
  unfold byte_part in HB. tauto.
Qed.

(** X4.  In every reachable state the byte state agrees with the
    direction bit and with [transmit]: receiving data goes with
    direction 0 and [TRANSMITTER_MASTER], sending with direction 1 and
    [TRANSMITTER_SLAVE], and every byte state but [SLAVE_IDLE] has a
    target address.  So the byte that follows the address byte of a
    write always leads to [SLAVE_RECEIVEDATA]: the other arm of that
    conditional is never taken. *)
Theorem direction_agrees d :
  reachable hd rd d ->
  (slave_state d = SLAVE_RECEIVEADDR \/ slave_state d = SLAVE_RECEIVEDATA ->
   slave_rw d = 0 /\ transmit d = TRANSMITTER_MASTER) /\
  (slave_state d = SLAVE_SENDDATA ->
   slave_rw d = 1 /\ transmit d = TRANSMITTER_SLAVE) /\
  (slave_state d <> SLAVE_IDLE -> slave_addr d <> 255) /\
  (slave_state d = SLAVE_RECEIVEADDR ->
   slave_state (i2c_gpio_write hd rd d) = SLAVE_RECEIVEDATA).
Proof.
  intros Hr. destruct (reachable_wf d Hr) as [HB _].
  pose proof (byte_part_addr d HB) as Ha.
  unfold byte_part in HB. destruct HB as (_ & _ & _ & _ & _ & Hwf).
  split; [|split; [|split; [exact Ha|]]].
  - intros [H | H]; rewrite H in Hwf; cbn [byte_wf] in Hwf; tauto.
  - intros H. rewrite H in Hwf. cbn [byte_wf] in Hwf. tauto.
  - intros H. rewrite H in Hwf. cbn [byte_wf] in Hwf.
    destruct Hwf as (_ & Hrw & _).
    unfold i2c_gpio_write. rewrite H. cbv zeta.
    cbn [slave_state set_slave_state slave_rw bus_call set_i2c].
    rewrite Hrw. reflexivity.
Qed.

Lemma reachable_transmitting d :
  reachable hd rd d ->
  (state d = I2C_TRANSMIT \/ state d = I2C_TRANSMIT_START \/
   state d = I2C_TRANSACKNOWLEDGE ->
   (slave_state d = SLAVE_SENDDATA /\ transmit d = TRANSMITTER_SLAVE) \/
   (slave_state d = SLAVE_INVALID /\ transmit d = 0)) /\
  (state d = I2C_RECEIVE_WAIT -> transmit d = TRANSMITTER_MASTER).
Proof.
  intros Hr. destruct (reachable_wf d Hr) as [HB [_ HW]].
  unfold byte_part in HB. destruct HB as (_ & _ & _ & Htr & _ & Hwf).
  unfold TRANSMITTER_SLAVE, TRANSMITTER_MASTER in *.
  split.
  - intros H.
    assert (Hx : slave_state d <> SLAVE_IDLE /\ transmit d <> 2).
    { destruct H as [H | [H | H]]; rewrite H in HW; cbn [wire_wf] in HW;
        tauto. }
    destruct Hx as [Hss Ht].
    destruct (slave_state d); cbn [byte_wf] in Hwf;
      unfold TRANSMITTER_SLAVE, TRANSMITTER_MASTER in *;
      first [congruence | left; split; [reflexivity | lia]
            | right; split; [reflexivity | lia] | lia].
  - intros H. rewrite H in HW. cbn [wire_wf] in HW. tauto.
Qed.

(** X5.  In every reachable state, the wire decoder is in one of the
    transmitting states only during a read from a registered device
    ([SLAVE_SENDDATA], [TRANSMITTER_SLAVE]) or, with [transmit] still
    at the 0 that [i2c_gpio_init] left, after an address byte naming
    an absent device; and [I2C_RECEIVE_WAIT] goes with
    [TRANSMITTER_MASTER]. *)
Theorem transmitting_states d :
  reachable hd rd d ->
  (state d = I2C_TRANSMIT \/ state d = I2C_TRANSMIT_START \/
   state d = I2C_TRANSACKNOWLEDGE ->
   (slave_state d = SLAVE_SENDDATA /\ transmit d = TRANSMITTER_SLAVE) \/
   (slave_state d = SLAVE_INVALID /\ transmit d = 0)) /\
  (state d = I2C_RECEIVE_WAIT -> transmit d = TRANSMITTER_MASTER).
Proof. exact (reachable_transmitting d). Qed.

(** ** Once [transmit] is set *)

Lemma write_transmit_set d :
  transmit d <> 0 -> transmit (i2c_gpio_write hd rd d) <> 0.
Proof.
  destruct d as [h c s st ss sa rw ls p tr b]. cbn [transmit]. intros Ht.
  dispatch_byte.
  destruct ss; try exact Ht.
  destruct (hd h (Z.shiftr b 1)); cbn [negb]; [|exact Ht].
  destruct (sa =? 255), (is_set (Z.land b 1)); discriminate.
Qed.

Lemma dispatch_transmit_set d c s :
  transmit d <> 0 -> transmit (outcome_state (dispatch hd rd d c s)) <> 0.
Proof.
  intros Ht.
  assert (Hstop : forall x, transmit (i2c_gpio_stop x) <> 0).
  { intros x. destruct (stop_frame x) as (_ & _ & ->). discriminate. }
  unfold dispatch, receive_case, transmit_case.
  destruct (state d); cbv zeta; split_ifs;
    cbn [outcome_state transmit set_scl set_sda set_state set_slave_state
         set_pos set_byte i2c_gpio_next_byte bus_call set_i2c];
    first [exact Ht | apply Hstop | apply write_transmit_set; exact Ht].
Qed.

Lemma set_transmit_set d c s :
  transmit d <> 0 -> transmit (i2c_gpio_set hd rd d c s) <> 0.
Proof.
  intros Ht. pose proof (dispatch_transmit_set d c s Ht) as H.
  unfold i2c_gpio_set. destruct (dispatch hd rd d c s) as [d' s' | d'];
    cbn [outcome_state] in H; [|exact H].
  unfold latch. cbv zeta. destruct (negb (is_set (scl d')) && is_set c);
    exact H.
Qed.

Lemma feed_transmit_set es : forall d,
  transmit d <> 0 -> transmit (feed hd rd d es) <> 0.
Proof.
  induction es as [|[c s] es IH]; intros d Ht; cbn [feed].
  - exact Ht.
  - apply IH, set_transmit_set, Ht.
Qed.

(** X6.  Once [transmit] is not 0 it never is again, whatever is fed
    to the engine, and from then on the wire decoder is in a
    transmitting state only during a read from a registered device. *)
Theorem transmit_stays_set d es :
  reachable hd rd d ->
  transmit d <> 0 ->
  transmit (feed hd rd d es) <> 0 /\
  (state (feed hd rd d es) = I2C_TRANSMIT \/
   state (feed hd rd d es) = I2C_TRANSMIT_START \/
   state (feed hd rd d es) = I2C_TRANSACKNOWLEDGE ->
   slave_state (feed hd rd d es) = SLAVE_SENDDATA).
Proof.
  intros Hr Ht. pose proof (feed_transmit_set es d Ht) as Ht'.
  split; [exact Ht'|]. intros Hst.
  destruct (reachable_transmitting (feed hd rd d es) (reachable_feed es d Hr))
    as [H _].
  destruct (H Hst) as [[Hs _] | [_ H0]]; [exact Hs | contradiction].
Qed.

(** ** Calls that cannot do much *)

(** X7.  A call with the clock low never calls the bus and leaves the
    byte state, target address, direction, [transmit], byte register,
    bit counter and latched data level as they are.  Besides caching
    the two levels, all it can do is move the wire decoder from
    [I2C_TRANSMIT] (or [I2C_TRANSMIT_START]) to
    [I2C_TRANSACKNOWLEDGE], on the falling clock edge after the eighth
    bit. *)
Theorem clock_low_call d c s :
  is_set c = false ->
  i2c_gpio_set hd rd d c s =
  set_scl (set_last_sda
    (if match state d with
        | I2C_TRANSMIT | I2C_TRANSMIT_START => true
        | _ => false
        end && is_set (scl d) && (pos d =? 8)
     then set_state d I2C_TRANSACKNOWLEDGE else d) s) c.
Proof.
  intros Hc. unfold i2c_gpio_set, dispatch, receive_case, transmit_case.
  destruct (state d); cbv zeta; rewrite ?Hc;
    rewrite ?andb_false_r; cbn [negb andb scl last_sda pos set_state];
    rewrite ?Hc, ?andb_false_r; cbn [negb andb];
    try (destruct (is_set (scl d)); cbn [negb andb];
         try destruct (pos d =? 8));
    unfold latch; cbv zeta; cbn [scl set_state]; rewrite ?Hc, ?andb_false_r;
    reflexivity.
Qed.

(** X8.  While acknowledging or transmitting, no call reaches the bus
    or changes the byte state, the target address or [transmit], and
    none takes the decoder to idle: start and stop conditions are not
    looked for in these states.  At a rising clock edge in
    [I2C_TRANSMIT] the data level passed in is not even read. *)
Theorem deaf_states d c s :
  state d = I2C_TRANSMIT \/ state d = I2C_ACKNOWLEDGE ->
  (i2c (i2c_gpio_set hd rd d c s) = i2c d /\
   slave_state (i2c_gpio_set hd rd d c s) = slave_state d /\
   slave_addr (i2c_gpio_set hd rd d c s) = slave_addr d /\
   transmit (i2c_gpio_set hd rd d c s) = transmit d /\
   state (i2c_gpio_set hd rd d c s) <> I2C_IDLE) /\
  (state d = I2C_TRANSMIT ->
   negb (is_set (scl d)) && is_set c = true ->
   forall s', i2c_gpio_set hd rd d c s' = i2c_gpio_set hd rd d c s).
Proof.
  intros Hst. unfold i2c_gpio_set, dispatch, transmit_case.
  destruct Hst as [Hst | Hst]; rewrite Hst; cbv zeta.
  - destruct (negb (is_set (scl d)) && is_set c) eqn:Er.
    + split; [repeat split; cbn; congruence|]. reflexivity.
    + split; [|discriminate].
      destruct (is_set (scl d) && negb (is_set c) && (pos d =? 8));
        unfold latch; cbv zeta; cbn [scl set_state]; rewrite Er;
        repeat split; cbn; congruence.
  - split; [|discriminate].
    destruct (negb (is_set (scl d)) && is_set c) eqn:Er;
      unfold latch; cbv zeta; cbn [scl set_state set_pos]; rewrite ?Er;
      repeat split; cbn; try congruence;
      destruct (transmit d =? TRANSMITTER_MASTER); discriminate.
Qed.

(** ** Bytes cut short *)

Lemma feed_send_bits bits : forall h s st ss sa rw ls p tr by',
  st = I2C_RECEIVE \/ st = I2C_RECEIVE_WAIT ->
  0 <= p -> p + Z.of_nat (length bits) <= 7 ->
  exists s' st' ls',
    (st' = I2C_RECEIVE \/ st' = I2C_RECEIVE_WAIT) /\
    feed hd rd (mk_dev h 0 s st ss sa rw ls p tr by') (send_bits bits) =
    mk_dev h 0 s' st' ss sa rw ls' (p + Z.of_nat (length bits)) tr
           (shift_in_all by' bits).
Proof.
  unfold send_bits.
  induction bits as [|x bits IH]; intros h s st ss sa rw ls p tr by' Hst Hp Hl.
  - exists s, st, ls. split; [exact Hst|]. cbn [flat_map feed length].
    rewrite Z.add_0_r. reflexivity.
  - cbn [flat_map length]. cbn [length] in Hl.
    rewrite Nat2Z.inj_succ in *. rewrite feed_app.
    rewrite feed_bit_receive by (auto; lia).
    destruct (IH h (lvl x) I2C_RECEIVE ss sa rw (lvl x) (p + 1) tr
                 (shift_in by' (lvl x)) (or_introl eq_refl)
                 ltac:(lia) ltac:(lia)) as (s' & st' & ls' & Hst' & E).
    exists s', st', ls'. split; [exact Hst'|]. rewrite E.
    replace (p + 1 + Z.of_nat (length bits))
      with (p + Z.succ (Z.of_nat (length bits))) by lia.
    reflexivity.
Qed.

(** The state a write to a present device is in after the header
    and the data bytes. *)
Lemma feed_write_body h c s rw ls p tr by' a bs :
  0 <= a < 128 ->
  hd h a = true ->
  Forall (fun b => 0 <= b < 256) bs ->
  exists s' ss' ls',
    (ss' = SLAVE_RECEIVEADDR \/ ss' = SLAVE_RECEIVEDATA) /\
    feed hd rd (mk_dev h c s I2C_IDLE SLAVE_IDLE 255 rw ls p tr by')
         (start_cond ++ send_byte (2 * a) ++ ack_clock ++ send_bytes bs) =
    mk_dev (h ++ HasDevice a :: Start a :: map (Write a) bs) 0 s'
           I2C_RECEIVE_WAIT ss' a 0 ls' 0 TRANSMITTER_MASTER
           (last bs (2 * a)).
Proof.
  intros Ha Hdev Hbs.
  rewrite !app_assoc, feed_app, <- !app_assoc.
  rewrite feed_write_header by assumption.
  rewrite feed_send_bytes by auto.
  rewrite <- app_assoc.
  eexists _, _, _. split; [|reflexivity].
  destruct bs; auto.
Qed.

(** X9.  A stop condition after at most six bits of a data byte: the
    bits are dropped without a call on the bus, and the transaction
    is closed with [i2c_stop] as usual. *)
Theorem partial_byte_dropped d a bs bits :
  bus_idle d ->
  0 <= a < 128 ->
  hd (i2c d) a = true ->
  Forall (fun b => 0 <= b < 256) bs ->
  (length bits <= 6)%nat ->
  i2c (feed hd rd d
         ((start_cond ++ send_byte (2 * a) ++ ack_clock ++ send_bytes bs)
          ++ send_bits bits ++ stop_cond)) =
    i2c d ++ HasDevice a :: Start a :: map (Write a) bs ++ [Stop a] /\
  bus_idle (feed hd rd d
         ((start_cond ++ send_byte (2 * a) ++ ack_clock ++ send_bytes bs)
          ++ send_bits bits ++ stop_cond)).
Proof.
  destruct d as [h c s st ss sa rw ls p tr b].
  intros (Hst & Hss & Hsa) Ha Hdev Hbs Hl.
  cbn [state slave_state slave_addr] in *. subst st ss sa. cbn [i2c] in *.
  destruct (feed_write_body h c s rw ls p tr b a bs Ha Hdev Hbs)
    as (s1 & ss1 & ls1 & Hss1 & E1).
  rewrite feed_app, E1, feed_app.
  destruct (feed_send_bits bits (h ++ HasDevice a :: Start a :: map (Write a) bs)
              s1 I2C_RECEIVE_WAIT ss1 a 0 ls1 0 TRANSMITTER_MASTER
              (last bs (2 * a)) (or_intror eq_refl) ltac:(lia) ltac:(lia))
    as (s2 & st2 & ls2 & Hst2 & E2).
  rewrite E2. rewrite feed_stop_cond_receive by (auto; lia).
  replace (a =? 255) with false by (symmetry; apply Z.eqb_neq; lia).
  cbn [i2c]. split; [|repeat split].
  rewrite <- app_assoc. reflexivity.
Qed.

Lemma feed_stop_cond_last_bit h s st ss sa rw ls tr by' :
  st = I2C_RECEIVE \/ st = I2C_RECEIVE_WAIT ->
  feed hd rd (mk_dev h 0 s st ss sa rw ls 7 tr by') stop_cond =
  let w := i2c_gpio_write hd rd
             (mk_dev h 0 s I2C_RECEIVE ss sa rw 0 8 tr (shift_in by' 0)) in
  mk_dev (i2c w) 1 0 I2C_ACKNOWLEDGE (slave_state w) (slave_addr w)
         (slave_rw w) 1 8 (transmit w) (byte w).
Proof.
  intros Hst. unfold stop_cond. cbn [feed].
  set (X := mk_dev h 0 s I2C_RECEIVE ss sa rw 0 8 tr (shift_in by' 0)).
  assert (E1 : i2c_gpio_set hd rd (mk_dev h 0 s st ss sa rw ls 7 tr by') 0 0 =
               mk_dev h 0 s st ss sa rw 0 7 tr by')
    by (destruct Hst; subst st; step; reflexivity).
  rewrite E1.
  assert (E2 : i2c_gpio_set hd rd (mk_dev h 0 s st ss sa rw 0 7 tr by') 1 0 =
               latch (set_state (i2c_gpio_write hd rd X) I2C_ACKNOWLEDGE) 1 0)
    by (destruct Hst; subst st; reflexivity).
  rewrite E2.
  cbv zeta. destruct (write_frame X) as (Hc & Hs & Hst' & Hls & Hp).
  destruct (i2c_gpio_write hd rd X) as [wh wc ws wst wss wsa wrw wls wp wtr wb].
  cbn [scl sda state last_sda pos X] in Hc, Hs, Hst', Hls, Hp. subst.
  cbv beta iota zeta delta
    [latch set_state set_sda set_last_sda set_scl
     i2c scl sda state slave_state slave_addr slave_rw last_sda pos
     transmit byte].
  eval_literals. prune. step. reflexivity.
Qed.

Lemma bits_value_range bs : 0 <= bits_value 0 bs < 2 ^ Z.of_nat (length bs).
Proof.
  induction bs as [|b bs IH].
  - cbn. lia.
  - cbn [bits_value fold_left length]. fold (bits_value (2 * 0 + lvl b) bs).
    rewrite bits_value_shift, Nat2Z.inj_succ, Z.pow_succ_r by lia.
    destruct b; cbn [lvl]; lia.
Qed.

Lemma shift_in_all_snoc x bs b :
  shift_in_all x (bs ++ [b]) = shift_in (shift_in_all x bs) (lvl b).
Proof. unfold shift_in_all. rewrite fold_left_app. reflexivity. Qed.

(** Eight shifts push out whatever the byte register held. *)
Lemma shift_in_all_full x bs :
  length bs = 8%nat -> shift_in_all x bs = bits_value 0 bs.
Proof.
  intros Hl.
  assert (Hr : 0 <= shift_in_all x bs < 256).
  { destruct (exists_last (l := bs)) as (bs' & b & ->);
      [intros ->; discriminate|].
    rewrite shift_in_all_snoc, shift_in_eq. apply Z.mod_pos_bound. lia. }
  pose proof (bits_value_range bs) as Hv. rewrite Hl in Hv.
  change (2 ^ Z.of_nat 8) with 256 in Hv.
  rewrite <- (Z.mod_small _ 256 Hr).
  rewrite (shift_in_all_mod bs x x eq_refl).
  rewrite bits_value_shift, Hl. change (2 ^ Z.of_nat 8) with 256.
  rewrite Z.add_comm, Z.mod_add by lia. apply Z.mod_small, Hv.
Qed.

(** X10.  A stop condition after seven bits of a data byte is not
    seen: the clock pulse that introduces it is taken as the eighth
    bit, a 0, the completed byte is written to the device, and the
    decoder is left acknowledging with the transaction open. *)
Theorem seven_bits_stop_missed d a bs bits :
  bus_idle d ->
  0 <= a < 128 ->
  hd (i2c d) a = true ->
  Forall (fun b => 0 <= b < 256) bs ->
  length bits = 7%nat ->
  let d' := feed hd rd d
              ((start_cond ++ send_byte (2 * a) ++ ack_clock ++ send_bytes bs)
               ++ send_bits bits ++ stop_cond) in
  i2c d' = i2c d ++ HasDevice a :: Start a :: map (Write a) bs ++
                    [Write a (bits_value 0 (bits ++ [false]))] /\
  state d' = I2C_ACKNOWLEDGE /\ slave_addr d' = a /\
  slave_state d' = SLAVE_RECEIVEDATA.
Proof.
  destruct d as [h c s st ss sa rw ls p tr b].
  intros (Hst & Hss & Hsa) Ha Hdev Hbs Hl d'.
  cbn [state slave_state slave_addr] in *. subst st ss sa. cbn [i2c] in *.
  destruct (feed_write_body h c s rw ls p tr b a bs Ha Hdev Hbs)
    as (s1 & ss1 & ls1 & Hss1 & E1).
  destruct (feed_send_bits bits (h ++ HasDevice a :: Start a :: map (Write a) bs)
              s1 I2C_RECEIVE_WAIT ss1 a 0 ls1 0 TRANSMITTER_MASTER
              (last bs (2 * a)) (or_intror eq_refl) ltac:(lia) ltac:(lia))
    as (s2 & st2 & ls2 & Hst2 & E2).
  assert (E : d' =
    mk_dev ((h ++ HasDevice a :: Start a :: map (Write a) bs) ++
            [Write a (bits_value 0 (bits ++ [false]))])
           1 0 I2C_ACKNOWLEDGE SLAVE_RECEIVEDATA a 0 1 8 TRANSMITTER_MASTER
           (bits_value 0 (bits ++ [false]))).
  { unfold d'. rewrite feed_app, E1, feed_app, E2, Hl.
    change (0 + Z.of_nat 7) with 7.
    rewrite feed_stop_cond_last_bit by exact Hst2.
    match goal with
    | |- context [shift_in (shift_in_all ?x bits) 0] =>
        change (shift_in (shift_in_all x bits) 0)
          with (shift_in (shift_in_all x bits) (lvl false));
        rewrite <- (shift_in_all_snoc x bits false)
    end.
    rewrite shift_in_all_full by (rewrite length_app, Hl; reflexivity).
    destruct Hss1; subst ss1; dispatch_byte; settle; reflexivity. }
  rewrite E. cbn [i2c state slave_addr slave_state].
  rewrite <- app_assoc. repeat split.
Qed.

(** X11.  Every completed byte is acknowledged, whatever the byte state
    and whether or not a device answers: after the eighth bit the
    decoder is in [I2C_ACKNOWLEDGE], where [i2c_gpio_get_sda] still
    shows the level sampled for the last bit, and from the rising edge
    of the ninth clock pulse it shows 0. *)
Theorem every_byte_acknowledged d b :
  state d = I2C_RECEIVE \/ state d = I2C_RECEIVE_WAIT ->
  scl d = 0 -> pos d = 0 ->
  0 <= b < 256 ->
  let d' := feed hd rd d (send_byte b) in
  state d' = I2C_ACKNOWLEDGE /\
  i2c_gpio_get_sda d' = lvl (Z.testbit b 0) /\
  sampled hd rd d' ack_clock = [0] /\
  i2c_gpio_get_sda (feed hd rd d' ack_clock) = 0.
Proof.
  destruct d as [h c s st ss sa rw ls p tr by'].
  cbn [state scl pos]. intros Hst -> -> Hb.
  rewrite feed_send_byte by assumption. cbv zeta.
  destruct (i2c_gpio_write hd rd _) as [wh wc ws wst wss wsa wrw wls wp wtr wb].
  cbn [i2c slave_state slave_addr slave_rw transmit byte state].
  split; [reflexivity|]. split; [observe; reflexivity|].
  unfold ack_clock, bit_clock. cbn [sampled feed]. cbv zeta.
  destruct (wtr =? TRANSMITTER_MASTER) eqn:Htr; unfold TRANSMITTER_MASTER in Htr;
    settle; step; step; step; observe; split; reflexivity.
Qed.

(** ** Ends of a read *)

(** The data phase of a read of [S k] bytes ends at the clock pulse on
    which the master does not acknowledge. *)
Lemma feed_recv_bytes_nack a k h v :
  0 <= a < 128 ->
  0 <= v < 256 ->
  exists s' by',
    feed hd rd (mk_dev h 0 0 I2C_TRANSMIT SLAVE_SENDDATA a 1 1 0
                       TRANSMITTER_SLAVE v) (recv_bytes (S k)) =
    mk_dev (h ++ map (Read a) (reads rd h a k) ++ [Stop a]) 0 s' I2C_IDLE
           SLAVE_IDLE 255 1 1 8 TRANSMITTER_MASTER by'.
Proof.
  intros Ha Hv. unfold recv_bytes. rewrite !feed_app.
  destruct (feed_recv_acked a k h 0 I2C_TRANSMIT SLAVE_SENDDATA 1 1
              TRANSMITTER_SLAVE v (or_introl eq_refl) Hv) as [-> _].
  set (st := match k with O => I2C_TRANSMIT | _ => I2C_TRANSMIT_START end).
  assert (Hst : st = I2C_TRANSMIT \/ st = I2C_TRANSMIT_START)
    by (destruct k; auto).
  match goal with
  | |- context [feed hd rd (mk_dev ?h' 0 ?s' st ?ss ?sa ?rw ?ls 0 ?tr ?v') recv_byte] =>
      destruct (feed_recv_byte h' s' st ss sa rw ls tr v' Hst) as [-> _]
  end.
  match goal with
  | |- context [feed hd rd (mk_dev ?h' 0 ?s' I2C_TRANSACKNOWLEDGE ?ss ?sa ?rw ?ls ?p ?tr ?b) (bit_clock 1)] =>
      destruct (feed_master_nack h' s' ss sa rw ls p tr b) as [-> _]
  end.
  replace (a =? 255) with false by (symmetry; apply Z.eqb_neq; lia).
  rewrite <- app_assoc. eexists _, _. reflexivity.
Qed.

Lemma reads_succ h a k :
  map (Read a) (reads rd h a (S k)) =
  map (Read a) (reads rd h a k) ++
  [Read a (u8 (rd (h ++ map (Read a) (reads rd h a k)) a))].
Proof.
  revert h. induction k as [|k IH]; intros h.
  - cbn [reads map app]. rewrite app_nil_r. reflexivity.
  - change (reads rd h a (S (S k)))
      with (u8 (rd h a) :: reads rd (h ++ [Read a (u8 (rd h a))]) a (S k)).
    cbn [map]. rewrite IH. cbn [reads map].
    rewrite <- app_assoc. reflexivity.
Qed.

(** A stop condition in place of the ninth clock pulse: the low data
    line at the rising edge is taken as an acknowledge, so one more
    byte is fetched before the stop is seen. *)
Lemma feed_stop_cond_transack h s ss sa rw ls p tr by' :
  feed hd rd (mk_dev h 0 s I2C_TRANSACKNOWLEDGE ss sa rw ls p tr by')
       stop_cond =
  mk_dev (if sa =? 255 then h ++ [Read sa (u8 (rd h sa))]
          else (h ++ [Read sa (u8 (rd h sa))]) ++ [Stop sa])
         1 0 I2C_IDLE SLAVE_IDLE 255 rw 1 0 TRANSMITTER_MASTER (u8 (rd h sa)).
Proof.
  unfold stop_cond, TRANSMITTER_MASTER. cbn [feed].
  step. step.
  generalize (u8 (rd h sa)); intros v.
  generalize (h ++ [Read sa v]); intros h'.
  set (X := mk_dev h' 1 0 I2C_TRANSMIT_START ss sa rw 0 0 tr v).
  assert (ES : i2c_gpio_stop (set_state X I2C_IDLE) =
               mk_dev (if sa =? 255 then h' else h' ++ [Stop sa]) 1 0 I2C_IDLE
                      SLAVE_IDLE 255 rw 0 0 2 v).
  { unfold X, i2c_gpio_stop. cbv zeta. cbn [slave_addr set_state].
    destruct (sa =? 255); reflexivity. }
  unfold i2c_gpio_set, dispatch. change (state X) with I2C_TRANSMIT_START.
  cbv iota zeta.
  change (is_set (scl X)) with true. change (is_set (last_sda X)) with false.
  change (is_set 1) with true. cbn [negb andb].
  rewrite ES. unfold transmit_case. cbv zeta. cbn [scl].
  change (is_set 1) with true. cbn [negb andb].
  unfold latch. cbv zeta. cbn [scl]. change (is_set 1) with true.
  cbn [negb andb]. reflexivity.
Qed.

(** A stop condition after the ninth clock pulse of an acknowledged
    byte: its rising clock edge starts the next byte. *)
Lemma feed_stop_cond_transmit_start h s ss sa rw ls tr by' :
  feed hd rd (mk_dev h 0 s I2C_TRANSMIT_START ss sa rw ls 0 tr by')
       stop_cond =
  mk_dev h 1 (msb by') I2C_TRANSMIT ss sa rw 1 1 tr (shl1 by').
Proof.
  unfold stop_cond. cbn [feed]. step. step. step. reflexivity.
Qed.

(** The address byte of a read after a repeated start. *)
Lemma feed_read_header_open h s sa rw ls tr by' a :
  0 <= a < 128 ->
  sa <> 255 ->
  hd h a = true ->
  feed hd rd (mk_dev h 0 s I2C_RECEIVE SLAVE_IDLE sa rw ls 0 tr by')
       (send_byte (2 * a + 1) ++ ack_clock) =
  mk_dev ((h ++ [HasDevice a]) ++ [Read a (u8 (rd (h ++ [HasDevice a]) a))])
         0 0 I2C_TRANSMIT SLAVE_SENDDATA a 1 1 0 TRANSMITTER_SLAVE
         (u8 (rd (h ++ [HasDevice a]) a)).
Proof.
  intros Ha Hsa Hdev. rewrite !feed_app.
  rewrite feed_send_byte by (auto; lia).
  dispatch_byte. destruct (addr_byte_read a) as [-> ->]. rewrite Hdev.
  replace (sa =? 255) with false by (symmetry; apply Z.eqb_neq; exact Hsa).
  settle. rewrite feed_ack_clock. reflexivity.
Qed.

(** X12.  A read is closed by the clock pulse on which the master does
    not acknowledge: [i2c_stop] is called there, the engine is idle
    again, and the stop condition that follows adds no call. *)
Theorem nack_ends_read d a n :
  bus_idle d ->
  0 <= a < 128 ->
  hd (i2c d) a = true ->
  let h0 := i2c d ++ [HasDevice a; Start a] in
  let d' := feed hd rd d
              (start_cond ++ send_byte (2 * a + 1) ++ ack_clock ++
               recv_bytes (S n)) in
  i2c d' = h0 ++ map (Read a) (reads rd h0 a (S n)) ++ [Stop a] /\
  bus_idle d' /\
  i2c (feed hd rd d' stop_cond) = i2c d' /\
  bus_idle (feed hd rd d' stop_cond).
Proof.
  destruct d as [h c s st ss sa rw ls p tr b].
  intros (Hst & Hss & Hsa) Ha Hdev h0 d'.
  cbn [state slave_state slave_addr] in *. subst st ss sa. cbn [i2c] in *.
  set (v0 := u8 (rd h0 a)).
  destruct (feed_recv_bytes_nack a n (h0 ++ [Read a v0]) v0 Ha (u8_range _))
    as (s' & by' & E).
  assert (E' : d' =
    mk_dev (h0 ++ map (Read a) (reads rd h0 a (S n)) ++ [Stop a]) 0 s'
           I2C_IDLE SLAVE_IDLE 255 1 1 8 TRANSMITTER_MASTER by').
  { unfold d'. rewrite !app_assoc, feed_app, <- !app_assoc.
    rewrite feed_read_header by assumption. fold h0. fold v0.
    rewrite E. cbn [reads map]. fold v0. rewrite <- !app_assoc. reflexivity. }
  rewrite E', feed_stop_cond_idle. cbn [i2c].
  repeat split.
Qed.

(** X13.  A stop condition right after the eighth bit of a byte that
    is being read, with no clock pulse of its own for the
    acknowledge bit: the engine reads the low data line as an
    acknowledge and fetches one byte more from the device than the
    master clocked out, and only then calls [i2c_stop]. *)
Theorem read_stopped_without_nack d a k :
  bus_idle d ->
  0 <= a < 128 ->
  hd (i2c d) a = true ->
  let h0 := i2c d ++ [HasDevice a; Start a] in
  let d' := feed hd rd d
              ((start_cond ++ send_byte (2 * a + 1) ++ ack_clock) ++
               recv_acked k ++ recv_byte ++ stop_cond) in
  i2c d' = h0 ++ map (Read a) (reads rd h0 a (S (S k))) ++ [Stop a] /\
  bus_idle d'.
Proof.
  destruct d as [h c s st ss sa rw ls p tr b].
  intros (Hst & Hss & Hsa) Ha Hdev h0 d'.
  cbn [state slave_state slave_addr] in *. subst st ss sa. cbn [i2c] in *.
  set (v0 := u8 (rd h0 a)).
  assert (E' : exists by',
    d' = mk_dev (h0 ++ map (Read a) (reads rd h0 a (S (S k))) ++ [Stop a]) 1 0
                I2C_IDLE SLAVE_IDLE 255 1 1 0 TRANSMITTER_MASTER by').
  { unfold d'. rewrite feed_app.
    rewrite feed_read_header by assumption. fold h0. fold v0.
    rewrite !feed_app.
    destruct (feed_recv_acked a k (h0 ++ [Read a v0]) 0 I2C_TRANSMIT
                SLAVE_SENDDATA 1 1 TRANSMITTER_SLAVE v0
                (or_introl eq_refl) (u8_range _)) as [-> _].
    set (st := match k with O => I2C_TRANSMIT | _ => I2C_TRANSMIT_START end).
    assert (Hst : st = I2C_TRANSMIT \/ st = I2C_TRANSMIT_START)
      by (destruct k; auto).
    match goal with
    | |- context [feed hd rd (mk_dev ?h' 0 ?s' st ?ss ?sa ?rw ?ls 0 ?tr ?v') recv_byte] =>
        destruct (feed_recv_byte h' s' st ss sa rw ls tr v' Hst) as [-> _]
    end.
    rewrite feed_stop_cond_transack.
    replace (a =? 255) with false by (symmetry; apply Z.eqb_neq; lia).
    eexists. f_equal.
    change (reads rd h0 a (S (S k))) with (v0 :: reads rd (h0 ++ [Read a v0]) a (S k)).
    cbn [map]. rewrite reads_succ, <- !app_comm_cons, <- !app_assoc.
    reflexivity. }
  destruct E' as [by' ->]. cbn [i2c]. repeat split.
Qed.

(** X14.  A stop condition after the master has acknowledged a byte
    and taken the clock low again is not seen: its rising clock edge
    starts the transmission of the byte fetched at the acknowledge.
    No [i2c_stop] is made and the engine is left transmitting. *)
Theorem acknowledged_read_stop_missed d a k :
  bus_idle d ->
  0 <= a < 128 ->
  hd (i2c d) a = true ->
  let h0 := i2c d ++ [HasDevice a; Start a] in
  let d' := feed hd rd d
              ((start_cond ++ send_byte (2 * a + 1) ++ ack_clock) ++
               recv_acked (S k) ++ stop_cond) in
  i2c d' = h0 ++ map (Read a) (reads rd h0 a (S (S k))) /\
  state d' = I2C_TRANSMIT /\ pos d' = 1 /\ slave_addr d' = a /\
  slave_state d' = SLAVE_SENDDATA.
Proof.
  destruct d as [h c s st ss sa rw ls p tr b].
  intros (Hst & Hss & Hsa) Ha Hdev h0 d'.
  cbn [state slave_state slave_addr] in *. subst st ss sa. cbn [i2c] in *.
  set (v0 := u8 (rd h0 a)).
  assert (E' : exists s' by',
    d' = mk_dev (h0 ++ map (Read a) (reads rd h0 a (S (S k)))) 1 s'
                I2C_TRANSMIT SLAVE_SENDDATA a 1 1 1 TRANSMITTER_SLAVE by').
  { unfold d'. rewrite feed_app.
    rewrite feed_read_header by assumption. fold h0. fold v0.
    rewrite feed_app.
    destruct (feed_recv_acked a (S k) (h0 ++ [Read a v0]) 0 I2C_TRANSMIT
                SLAVE_SENDDATA 1 1 TRANSMITTER_SLAVE v0
                (or_introl eq_refl) (u8_range _)) as [-> _].
    rewrite feed_stop_cond_transmit_start.
    eexists _, _. f_equal. cbn [reads map]. fold v0.
    rewrite <- !app_assoc. reflexivity. }
  destruct E' as (s' & by' & ->). cbn [i2c state pos slave_addr slave_state].
  repeat split.
Qed.

(** X15.  Writing a register index and reading back after a repeated
    start: the address byte of the read is looked up, no second
    [i2c_start] is made, the first byte is fetched at once, and the
    read then runs and ends like one that began with a start
    condition. *)
Theorem write_then_repeated_start_read d a1 bs a2 n :
  bus_idle d ->
  0 <= a1 < 128 -> 0 <= a2 < 128 ->
  hd (i2c d) a1 = true ->
  hd (i2c d ++ HasDevice a1 :: Start a1 :: map (Write a1) bs) a2 = true ->
  Forall (fun b => 0 <= b < 256) bs ->
  let h1 := i2c d ++ HasDevice a1 :: Start a1 :: map (Write a1) bs ++
                     [HasDevice a2] in
  let head := (start_cond ++ send_byte (2 * a1) ++ ack_clock ++ send_bytes bs)
              ++ restart_cond ++ send_byte (2 * a2 + 1) ++ ack_clock in
  i2c (feed hd rd d (head ++ recv_bytes (S n) ++ stop_cond)) =
    h1 ++ map (Read a2) (reads rd h1 a2 (S n)) ++ [Stop a2] /\
  map is_set (sampled hd rd (feed hd rd d head) (recv_bytes (S n))) =
    flat_map (fun v => bits_of v ++ [true]) (reads rd h1 a2 (S n)) /\
  bus_idle (feed hd rd d (head ++ recv_bytes (S n) ++ stop_cond)).
Proof.
  destruct d as [h c s st ss sa rw ls p tr b].
  intros (Hst & Hss & Hsa) Ha1 Ha2 Hd1 Hd2 Hbs h1 head.
  cbn [state slave_state slave_addr] in *. subst st ss sa. cbn [i2c] in *.
  set (v0 := u8 (rd h1 a2)).
  assert (Eh : feed hd rd
                 (mk_dev h c s I2C_IDLE SLAVE_IDLE 255 rw ls p tr b) head =
               mk_dev (h1 ++ [Read a2 v0]) 0 0 I2C_TRANSMIT SLAVE_SENDDATA a2
                      1 1 0 TRANSMITTER_SLAVE v0).
  { unfold head. rewrite feed_app.
    destruct (feed_write_body h c s rw ls p tr b a1 bs Ha1 Hd1 Hbs)
      as (s1 & ss1 & ls1 & Hss1 & ->).
    rewrite feed_app, feed_restart_cond by (auto; lia).
    rewrite feed_read_header_open by (assumption || lia).
    unfold v0, h1.
    replace ((h ++ HasDevice a1 :: Start a1 :: map (Write a1) bs) ++ [HasDevice a2])
      with (h ++ HasDevice a1 :: Start a1 :: map (Write a1) bs ++ [HasDevice a2])
      by (rewrite <- app_assoc; reflexivity).
    reflexivity. }
  destruct (feed_recv_bytes a2 n (h1 ++ [Read a2 v0]) v0 Ha2 (u8_range _))
    as [Hlog Hbits].
  destruct (feed_recv_bytes_nack a2 n (h1 ++ [Read a2 v0]) v0 Ha2 (u8_range _))
    as (s' & by' & E).
  split; [|split].
  - rewrite !feed_app, Eh, Hlog. cbn [reads map]. fold v0.
    rewrite <- !app_assoc. reflexivity.
  - rewrite Eh. exact Hbits.
  - rewrite !feed_app, Eh, E, feed_stop_cond_idle. repeat split.
Qed.

(** ** Calls with the clock held high *)

Lemma high_keep d d' c s :
  is_set (scl d') = true -> byte d' = byte d -> i2c d' = i2c d ->
  byte (latch d' c s) = byte d /\ i2c (latch d' c s) = i2c d.
Proof.
  intros Hc Hb Hi. unfold latch. rewrite Hc. cbn [negb andb].
  cbn [byte i2c set_scl set_last_sda]. auto.
Qed.

Lemma high_stop d c s :
  is_set (scl d) = true ->
  let d' := latch (i2c_gpio_stop (set_state d I2C_IDLE)) c s in
  byte d' = byte d /\
  (i2c d' = i2c d \/
   slave_addr d <> 255 /\ i2c d' = i2c d ++ [Stop (slave_addr d)] /\
   bus_idle d').
Proof.
  intros Hc d'. unfold d', latch, i2c_gpio_stop, bus_idle. cbv zeta.
  cbn [slave_addr set_state].
  destruct (slave_addr d =? 255) eqn:Hsa; cbn [negb];
    cbn [scl set_transmit set_slave_state set_slave_addr set_state bus_call
         set_i2c];
    rewrite Hc; cbn [negb andb];
    (split; [reflexivity|]); [left; reflexivity|].
  right. apply Z.eqb_neq in Hsa. repeat split. exact Hsa.
Qed.

(** X16.  A call with the clock high before and after never touches
    the byte register, and the only call it can make on the bus is
    [i2c_stop] for the current target address, after which the engine
    is idle. *)
Theorem clock_high_call d c s :
  state d <> I2C_TRANSMIT_WAIT ->
  is_set (scl d) = true -> is_set c = true ->
  byte (i2c_gpio_set hd rd d c s) = byte d /\
  (i2c (i2c_gpio_set hd rd d c s) = i2c d \/
   slave_addr d <> 255 /\
   i2c (i2c_gpio_set hd rd d c s) = i2c d ++ [Stop (slave_addr d)] /\
   bus_idle (i2c_gpio_set hd rd d c s)).
Proof.
  intros Hst Hc0 Hc.
  assert (K : forall d', is_set (scl d') = true -> byte d' = byte d ->
                         i2c d' = i2c d ->
            byte (latch d' c s) = byte d /\
            (i2c (latch d' c s) = i2c d \/
             slave_addr d <> 255 /\
             i2c (latch d' c s) = i2c d ++ [Stop (slave_addr d)] /\
             bus_idle (latch d' c s))).
  { intros d' H1 H2 H3. destruct (high_keep d d' c s H1 H2 H3). auto. }
  pose proof (high_stop d c s Hc0) as S. cbv zeta in S.
  unfold i2c_gpio_set, dispatch, receive_case, transmit_case.
  destruct (state d); try congruence; rewrite ?Hc0, ?Hc; cbn [negb andb];
    cbv zeta; rewrite ?Hc0; cbn [negb andb].
  - destruct (is_set (last_sda d) && negb (is_set s)); apply K; auto.
  - destruct (is_set s && negb (is_set (last_sda d))); [exact S|].
    destruct (negb (is_set s) && is_set (last_sda d)); apply K; auto.
  - destruct (is_set s && negb (is_set (last_sda d))); [exact S|].
    destruct (negb (is_set s) && is_set (last_sda d)); apply K; auto.
  - destruct (negb (is_set (last_sda d)) && is_set s).
    + assert (Hs : is_set (scl (i2c_gpio_stop (set_state d I2C_IDLE))) = true)
        by (rewrite stop_scl; exact Hc0).
      rewrite Hs. cbn [negb andb]. exact S.
    + rewrite Hc0. cbn [negb andb]. apply K; auto.
  - apply K; auto.
  - apply K; auto.
  - apply K; auto.
Qed.

(** ** Transactions one after the other *)

Lemma feed_txn d t :
  bus_idle d -> txn_ok t -> hd (i2c d) (txn_addr t) = true ->
  i2c (feed hd rd d (txn_wave t)) = i2c d ++ txn_calls rd (i2c d) t /\
  bus_idle (feed hd rd d (txn_wave t)).
Proof.
  destruct d as [h c s st ss sa rw ls p tr b].
  intros (Hst & Hss & Hsa) [Ha Hok] Hdev.
  cbn [state slave_state slave_addr] in *. subst st ss sa. cbn [i2c] in *.
  destruct t as [a bs | a n]; cbn [txn_addr txn_wave txn_calls] in *.
  - rewrite feed_write_txn by assumption. cbn [i2c]. repeat split.
  - cbv zeta. set (h0 := h ++ [HasDevice a; Start a]).
    set (v0 := u8 (rd h0 a)).
    destruct (feed_recv_bytes_nack a n (h0 ++ [Read a v0]) v0 Ha (u8_range _))
      as (s' & by' & E).
    unfold read_txn. rewrite !app_assoc, feed_app, feed_app, <- !app_assoc.
    rewrite feed_read_header by assumption. fold h0. fold v0.
    rewrite E, feed_stop_cond_idle. cbn [i2c]. split; [|repeat split].
    cbn [reads map]. fold v0. unfold h0. rewrite <- !app_assoc. reflexivity.
Qed.

(** X17.  Transactions compose: from an idle engine, any sequence of
    complete write and read transactions to devices that are present
    makes on the bus the calls of the first, then those of the second,
    and so on, and leaves the engine idle. *)
Theorem session_composes ts : forall d,
  bus_idle d ->
  Forall txn_ok ts ->
  (forall h t, In t ts -> hd h (txn_addr t) = true) ->
  i2c (feed hd rd d (flat_map txn_wave ts)) = session_calls rd (i2c d) ts /\
  bus_idle (feed hd rd d (flat_map txn_wave ts)).
Proof.
  induction ts as [|t ts IH]; intros d Hd Hok Hdev.
  - cbn [flat_map feed session_calls]. auto.
  - inversion Hok as [|? ? Ht Hts]; subst.
    cbn [flat_map session_calls]. rewrite feed_app.
    destruct (feed_txn d t Hd Ht (Hdev _ t (or_introl eq_refl))) as [E I].
    destruct (IH (feed hd rd d (txn_wave t)) I Hts
                 (fun h t' H => Hdev h t' (or_intror H))) as [E' I'].
    rewrite E', E. auto.
Qed.

End Segments.

(** * Concrete runs *)

(** C5.  A fresh engine and a bus without devices.  [i2c_gpio_init]
    leaves [transmit] at 0, which [I2C_ACKNOWLEDGE] does not take for
    [TRANSMITTER_MASTER]: after the address byte of the absent device
    0x50 the decoder goes to [I2C_TRANSMIT].  A stop condition right
    after the header is then not seen and the transaction stays as it
    is; with a data byte, the ninth clock pulse is read as a missing
    acknowledge, which resets the byte state and calls [i2c_stop] with
    no stop condition on the wire; and a read of two bytes calls
    [i2c_read] for the absent device.  After one start and stop
    ([used_engine]) the same waveforms only give the look-up and the
    [i2c_stop], and the byte state is [SLAVE_INVALID] up to the stop
    condition. *)
Theorem fresh_engine_absent_device :
  let run := feed bus_empty read_count in
  let header := start_cond ++ send_byte 160 ++ ack_clock in
  transmit i2c_gpio_init = 0 /\
  (state (run i2c_gpio_init (write_txn 80 [])) = I2C_TRANSMIT /\
   slave_state (run i2c_gpio_init (write_txn 80 [])) = SLAVE_INVALID /\
   slave_addr (run i2c_gpio_init (write_txn 80 [])) = 80 /\
   i2c (run i2c_gpio_init (write_txn 80 [])) = [HasDevice 80]) /\
  (slave_state (run i2c_gpio_init (header ++ send_bytes [66])) = SLAVE_IDLE /\
   i2c (run i2c_gpio_init (header ++ send_bytes [66])) =
     [HasDevice 80; Stop 80]) /\
  i2c (run i2c_gpio_init (read_txn 80 2)) =
    [HasDevice 80; Read 80 1; Stop 80] /\
  (state (run used_engine (write_txn 80 [])) = I2C_IDLE /\
   i2c (run used_engine (write_txn 80 [])) = [HasDevice 80; Stop 80] /\
   slave_state (run used_engine (header ++ send_bytes [66])) = SLAVE_INVALID /\
   i2c (run used_engine (header ++ send_bytes [66])) = [HasDevice 80] /\
   i2c (run used_engine (read_txn 80 2)) = [HasDevice 80; Stop 80]).
Proof.
  vm_compute. repeat split.
Qed.

(** [used_engine] is a fresh engine after a start and a stop. *)
Lemma used_engine_reached hd rd :
  feed hd rd i2c_gpio_init (start_cond ++ stop_cond) = used_engine.
Proof. reflexivity. Qed.




(** C3 as stated fails: after a repeated start the address byte of
    the other registered device 0x50 is looked up, but no [i2c_start]
    is made for it. *)
Lemma restart_new_address_no_start :
  let hd := bus_with [80; 81] in
  let d := feed hd read_count i2c_gpio_init
             ((start_cond ++ send_byte 162 ++ ack_clock ++ send_bytes [7])
              ++ restart_cond
              ++ send_byte 160 ++ ack_clock ++ send_bytes [9] ++ stop_cond) in
  hd [] 80 = true /\ hd [] 81 = true /\
  i2c d = [HasDevice 81; Start 81; Write 81 7;
           HasDevice 80; Write 80 9; Stop 80] /\
  ~ In (Start 80) (i2c d).
Proof.
  cbv zeta. split; [reflexivity|]. split; [reflexivity|].
  assert (E : i2c (feed (bus_with [80; 81]) read_count i2c_gpio_init
             ((start_cond ++ send_byte 162 ++ ack_clock ++ send_bytes [7])
              ++ restart_cond
              ++ send_byte 160 ++ ack_clock ++ send_bytes [9] ++ stop_cond)) =
          [HasDevice 81; Start 81; Write 81 7;
           HasDevice 80; Write 80 9; Stop 80]) by (vm_compute; reflexivity).
  split; [exact E|]. rewrite E. cbn [In].
  intros H. repeat (destruct H as [H|H]; [discriminate H|]). exact H.
Qed.

(** C3 as amended, on the same run. *)
Lemma restart_keeps_transaction_witness :
  let hd := bus_with [80; 81] in
  let d1 := feed hd read_count i2c_gpio_init
              ((start_cond ++ send_byte 162 ++ ack_clock ++ send_bytes [7])
               ++ restart_cond) in
  (pos d1 = 0 /\ slave_state d1 = SLAVE_IDLE /\ slave_addr d1 = 81) /\
  i2c (feed hd read_count d1
         (send_byte 160 ++ ack_clock ++ send_bytes [9] ++ stop_cond)) =
    i2c d1 ++ [HasDevice 80; Write 80 9; Stop 80].
Proof.
  destruct (restart_keeps_transaction (bus_with [80; 81]) read_count
              i2c_gpio_init 81 [7] 80 [9])
    as ((_ & _ & Hp & Hs & _ & Ha) & Hlog & _).
  - repeat split.
  - lia.
  - lia.
  - reflexivity.
  - reflexivity.
  - repeat constructor; lia.
  - repeat constructor; lia.
  - split; [repeat split; assumption | exact Hlog].
Defined.

(** C4 as stated fails: 0xA3 has the direction bit set, so the
    transaction is a read and 0x42 is never written. *)
Lemma example_0xA3_is_a_read :
  let d := feed (bus_with [81]) read_count i2c_gpio_init
             (start_cond ++ send_byte 163 ++ ack_clock
              ++ send_byte 66 ++ ack_clock ++ stop_cond) in
  i2c d = [HasDevice 81; Start 81; Read 81 2; Stop 81] /\
  ~ In (Write 81 66) (i2c d).
Proof.
  cbv zeta.
  assert (E : i2c (feed (bus_with [81]) read_count i2c_gpio_init
             (start_cond ++ send_byte 163 ++ ack_clock
              ++ send_byte 66 ++ ack_clock ++ stop_cond)) =
          [HasDevice 81; Start 81; Read 81 2; Stop 81])
    by (vm_compute; reflexivity).
  split; [exact E|]. rewrite E. cbn [In].
  intros H. repeat (destruct H as [H|H]; [discriminate H|]). exact H.
Qed.

(** C4 as amended, with a device at 0x51 only. *)
Lemma example_write_0x42_witness :
  i2c (feed (bus_with [81]) read_count i2c_gpio_init
         (((start_cond ++ send_byte 162) ++ ack_clock ++ send_byte 66)
          ++ ack_clock ++ stop_cond)) =
    [HasDevice 81; Start 81; Write 81 66; Stop 81].
Proof.
  destruct (example_write_0x42 (bus_with [81]) read_count) as [H _].
  - reflexivity.
  - exact H.
Defined.

(** C6 as stated fails: after the address byte of an absent device
    the engine is in a reachable state whose target address is 0x50,
    not the sentinel, although no transaction is open. *)
Lemma target_address_without_transaction :
  let d := feed bus_empty read_count i2c_gpio_init
             (start_cond ++ send_byte 160) in
  reachable bus_empty read_count d /\
  slave_addr d = 80 /\ txn_open (i2c d) = false /\
  ~ (slave_addr d = 255 <-> txn_open (i2c d) = false).
Proof.
  cbv zeta. split; [apply reachable_feed; constructor|].
  split; [reflexivity|]. split; [reflexivity|].
  intros [_ H]. vm_compute in H. specialize (H eq_refl). discriminate H.
Qed.

(** C6 as amended, on the state after a complete write. *)
Lemma sentinel_means_no_transaction_witness :
  txn_open (i2c (feed (bus_with [81]) read_count i2c_gpio_init
                      (write_txn 81 [66]))) = false.
Proof.
  destruct (sentinel_means_no_transaction (bus_with [81]) read_count
              (feed (bus_with [81]) read_count i2c_gpio_init (write_txn 81 [66])))
    as (H & _).
  - apply reachable_feed. constructor.
  - apply H. reflexivity.
Defined.


(** The path after a stop, on an empty bus and one data byte. *)
Lemma absent_address_stop_call_witness :
  i2c (feed bus_empty read_count
         (feed bus_empty read_count used_engine
            (start_cond ++ send_byte 160 ++ ack_clock ++ send_bytes [66]))
         stop_cond) = [HasDevice 80; Stop 80] /\
  txn_open [HasDevice 80] = false.
Proof.
  destruct (absent_address_stop_call bus_empty read_count used_engine 80 [66])
    as (_ & Hlog & Hopen & _).
  - repeat split.
  - reflexivity.
  - lia.
  - reflexivity.
  - repeat constructor; lia.
  - split; [exact Hlog | exact (Hopen eq_refl)].
Defined.

(** C10 on three calls that all pass a low data level. *)
Lemma start_needs_sampled_high_witness :
  state (feed bus_empty read_count i2c_gpio_init [(1, 0); (0, 0); (1, 0)]) =
    I2C_IDLE.
Proof.
  destruct (start_needs_sampled_high bus_empty read_count
              [(1, 0); (0, 0); (1, 0)]) as (_ & _ & (H & _) & _).
  - repeat constructor.
  - exact H.
Defined.

(** ** Runs for the further properties *)

(** X1 on the state after the address byte of a write and its
    acknowledge clock. *)
Lemma bit_counter_bounded_witness :
  let d := feed (bus_with [81]) read_count i2c_gpio_init
             (start_cond ++ send_byte 162 ++ ack_clock) in
  (0 <= pos d <= 8) /\ pos d = 0.
Proof.
  cbv zeta.
  destruct (bit_counter_bounded (bus_with [81]) read_count
              (feed (bus_with [81]) read_count i2c_gpio_init
                    (start_cond ++ send_byte 162 ++ ack_clock)))
    as (H1 & _ & H3 & _).
  - apply reachable_feed. constructor.
  - split; [exact H1 | apply H3; left; reflexivity].
Defined.

(** X2 on the same state. *)
Lemma transmit_wait_unreachable_witness :
  let d := feed (bus_with [81]) read_count i2c_gpio_init
             (start_cond ++ send_byte 162 ++ ack_clock) in
  state d = I2C_RECEIVE_WAIT /\ state d <> I2C_TRANSMIT_WAIT.
Proof.
  cbv zeta. split; [reflexivity|].
  apply (transmit_wait_unreachable (bus_with [81]) read_count).
  apply reachable_feed. constructor.
Defined.

(** X3 on the log of a complete write. *)
Lemma bus_arguments_in_range_witness :
  Forall call_ok [HasDevice 81; Start 81; Write 81 66; Stop 81].
Proof.
  apply (bus_arguments_in_range (bus_with [81]) read_count
           (feed (bus_with [81]) read_count i2c_gpio_init (write_txn 81 [66]))).
  apply reachable_feed. constructor.
Defined.

(** X4 on the state after the address byte of a write. *)
Lemma direction_agrees_witness :
  let d := feed (bus_with [81]) read_count i2c_gpio_init
             (start_cond ++ send_byte 162 ++ ack_clock) in
  slave_rw d = 0 /\ transmit d = TRANSMITTER_MASTER.
Proof.
  cbv zeta.
  destruct (direction_agrees (bus_with [81]) read_count
              (feed (bus_with [81]) read_count i2c_gpio_init
                    (start_cond ++ send_byte 162 ++ ack_clock)))
    as (H & _).
  - apply reachable_feed. constructor.
  - apply H. left. reflexivity.
Defined.

(** X5 on the state after the address byte of a read. *)
Lemma transmitting_states_witness :
  let d := feed (bus_with [81]) read_count i2c_gpio_init
             (start_cond ++ send_byte 163 ++ ack_clock) in
  (slave_state d = SLAVE_SENDDATA /\ transmit d = TRANSMITTER_SLAVE) \/
  (slave_state d = SLAVE_INVALID /\ transmit d = 0).
Proof.
  cbv zeta.
  destruct (transmitting_states (bus_with [81]) read_count
              (feed (bus_with [81]) read_count i2c_gpio_init
                    (start_cond ++ send_byte 163 ++ ack_clock)))
    as (H & _).
  - apply reachable_feed. constructor.
  - apply H. left. reflexivity.
Defined.

(** X6 on an engine that has seen a stop, then the address byte of an
    absent device. *)
Lemma transmit_stays_set_witness :
  let d := feed bus_empty read_count
             (feed bus_empty read_count i2c_gpio_init (start_cond ++ stop_cond))
             (start_cond ++ send_byte 160 ++ ack_clock) in
  state d = I2C_RECEIVE_WAIT /\ transmit d <> 0.
Proof.
  cbv zeta. split; [reflexivity|].
  apply (transmit_stays_set bus_empty read_count
           (feed bus_empty read_count i2c_gpio_init (start_cond ++ stop_cond))
           (start_cond ++ send_byte 160 ++ ack_clock)).
  - apply reachable_feed. constructor.
  - vm_compute. discriminate.
Defined.

(** X7 on the falling clock edge after the eighth bit of a byte that
    is being read. *)
Lemma clock_low_call_witness :
  let d := feed (bus_with [81]) read_count i2c_gpio_init
             ((start_cond ++ send_byte 163 ++ ack_clock) ++
              removelast recv_byte) in
  (state d = I2C_TRANSMIT /\ pos d = 8) /\
  i2c_gpio_set (bus_with [81]) read_count d 0 1 =
    set_scl (set_last_sda (set_state d I2C_TRANSACKNOWLEDGE) 1) 0.
Proof.
  cbv zeta. split; [split; reflexivity|].
  apply (clock_low_call (bus_with [81]) read_count
           (feed (bus_with [81]) read_count i2c_gpio_init
                 ((start_cond ++ send_byte 163 ++ ack_clock) ++
                  removelast recv_byte)) 0 1).
  reflexivity.
Defined.

(** X8 on a stop condition tried right after the eighth bit of the
    address byte, with the clock still high. *)
Lemma deaf_states_witness :
  let d := feed (bus_with [81]) read_count i2c_gpio_init
             (start_cond ++ removelast (send_byte 162)) in
  i2c (i2c_gpio_set (bus_with [81]) read_count d 1 1) = i2c d /\
  state (i2c_gpio_set (bus_with [81]) read_count d 1 1) <> I2C_IDLE.
Proof.
  cbv zeta.
  destruct (deaf_states (bus_with [81]) read_count
              (feed (bus_with [81]) read_count i2c_gpio_init
                    (start_cond ++ removelast (send_byte 162))) 1 1)
    as [(H1 & _ & _ & _ & H5) _].
  - right. reflexivity.
  - split; [exact H1 | exact H5].
Defined.

(** X9 on three bits after the data byte 0x42. *)
Lemma partial_byte_dropped_witness :
  i2c (feed (bus_with [81]) read_count i2c_gpio_init
         ((start_cond ++ send_byte 162 ++ ack_clock ++ send_bytes [66])
          ++ send_bits [true; false; true] ++ stop_cond)) =
    [HasDevice 81; Start 81; Write 81 66; Stop 81].
Proof.
  destruct (partial_byte_dropped (bus_with [81]) read_count i2c_gpio_init
              81 [66] [true; false; true]) as [H _].
  - repeat split.
  - lia.
  - reflexivity.
  - repeat constructor; lia.
  - cbn. lia.
  - exact H.
Defined.

(** X10 on the seven bits 1010101 after the address byte. *)
Lemma seven_bits_stop_missed_witness :
  let d := feed (bus_with [81]) read_count i2c_gpio_init
             ((start_cond ++ send_byte 162 ++ ack_clock ++ send_bytes [])
              ++ send_bits [true; false; true; false; true; false; true]
              ++ stop_cond) in
  i2c d = [HasDevice 81; Start 81; Write 81 170] /\
  state d = I2C_ACKNOWLEDGE.
Proof.
  cbv zeta.
  destruct (seven_bits_stop_missed (bus_with [81]) read_count i2c_gpio_init
              81 [] [true; false; true; false; true; false; true])
    as (H1 & H2 & _).
  - repeat split.
  - lia.
  - reflexivity.
  - constructor.
  - reflexivity.
  - split; [exact H1 | exact H2].
Defined.

(** X11 on the address byte of an absent device. *)
Lemma every_byte_acknowledged_witness :
  sampled bus_empty read_count
    (feed bus_empty read_count
       (feed bus_empty read_count i2c_gpio_init start_cond) (send_byte 160))
    ack_clock = [0].
Proof.
  destruct (every_byte_acknowledged bus_empty read_count
              (feed bus_empty read_count i2c_gpio_init start_cond) 160)
    as (_ & _ & H & _).
  - left. reflexivity.
  - reflexivity.
  - reflexivity.
  - lia.
  - exact H.
Defined.

(** X12 on a read of two bytes. *)
Lemma nack_ends_read_witness :
  let d := feed (bus_with [81]) read_count i2c_gpio_init
             (start_cond ++ send_byte 163 ++ ack_clock ++ recv_bytes 2) in
  i2c d = [HasDevice 81; Start 81; Read 81 2; Read 81 3; Stop 81] /\
  bus_idle d.
Proof.
  cbv zeta.
  destruct (nack_ends_read (bus_with [81]) read_count i2c_gpio_init 81 1)
    as (H1 & H2 & _).
  - repeat split.
  - lia.
  - reflexivity.
  - split; [exact H1 | exact H2].
Defined.

(** X13 on one byte read and a stop condition right after it. *)
Lemma read_stopped_without_nack_witness :
  i2c (feed (bus_with [81]) read_count i2c_gpio_init
         ((start_cond ++ send_byte 163 ++ ack_clock) ++
          recv_acked 0 ++ recv_byte ++ stop_cond)) =
    [HasDevice 81; Start 81; Read 81 2; Read 81 3; Stop 81].
Proof.
  destruct (read_stopped_without_nack (bus_with [81]) read_count
              i2c_gpio_init 81 0) as [H _].
  - repeat split.
  - lia.
  - reflexivity.
  - exact H.
Defined.

(** X14 on one acknowledged byte and a stop condition. *)
Lemma acknowledged_read_stop_missed_witness :
  let d := feed (bus_with [81]) read_count i2c_gpio_init
             ((start_cond ++ send_byte 163 ++ ack_clock) ++
              recv_acked 1 ++ stop_cond) in
  i2c d = [HasDevice 81; Start 81; Read 81 2; Read 81 3] /\
  state d = I2C_TRANSMIT.
Proof.
  cbv zeta.
  destruct (acknowledged_read_stop_missed (bus_with [81]) read_count
              i2c_gpio_init 81 0) as (H1 & H2 & _).
  - repeat split.
  - lia.
  - reflexivity.
  - split; [exact H1 | exact H2].
Defined.

(** X15 on the register index 5 written to 0x51 and one byte read
    back. *)
Lemma write_then_repeated_start_read_witness :
  i2c (feed (bus_with [81]) read_count i2c_gpio_init
         (((start_cond ++ send_byte 162 ++ ack_clock ++ send_bytes [5])
           ++ restart_cond ++ send_byte 163 ++ ack_clock)
          ++ recv_bytes 1 ++ stop_cond)) =
    [HasDevice 81; Start 81; Write 81 5; HasDevice 81; Read 81 4; Stop 81].
Proof.
  destruct (write_then_repeated_start_read (bus_with [81]) read_count
              i2c_gpio_init 81 [5] 81 0) as (H & _).
  - repeat split.
  - lia.
  - lia.
  - reflexivity.
  - reflexivity.
  - repeat constructor; lia.
  - exact H.
Defined.

(** X16 on a stop condition after the first bit of a data byte. *)
Lemma clock_high_call_witness :
  let d := feed (bus_with [81]) read_count i2c_gpio_init
             (start_cond ++ send_byte 162 ++ ack_clock ++ [(0, 0); (1, 0)]) in
  byte (i2c_gpio_set (bus_with [81]) read_count d 1 1) = byte d /\
  (i2c (i2c_gpio_set (bus_with [81]) read_count d 1 1) = i2c d \/
   slave_addr d <> 255 /\
   i2c (i2c_gpio_set (bus_with [81]) read_count d 1 1) =
     i2c d ++ [Stop (slave_addr d)] /\
   bus_idle (i2c_gpio_set (bus_with [81]) read_count d 1 1)).
Proof.
  cbv zeta.
  apply (clock_high_call (bus_with [81]) read_count
           (feed (bus_with [81]) read_count i2c_gpio_init
              (start_cond ++ send_byte 162 ++ ack_clock ++ [(0, 0); (1, 0)]))
           1 1).
  - vm_compute. discriminate.
  - reflexivity.
  - reflexivity.
Defined.

(** X17 on a write of one byte followed by a read of two. *)
Lemma session_composes_witness :
  i2c (feed (bus_with [81]) read_count i2c_gpio_init
         (flat_map txn_wave [Wr 81 [66]; Rd 81 1])) =
    [HasDevice 81; Start 81; Write 81 66; Stop 81;
     HasDevice 81; Start 81; Read 81 6; Read 81 7; Stop 81].
Proof.
  destruct (session_composes (bus_with [81]) read_count
              [Wr 81 [66]; Rd 81 1] i2c_gpio_init) as [H _].
  - repeat split.
  - repeat constructor; cbn; lia.
  - intros h t [<- | [<- | []]]; reflexivity.
  - exact H.
Defined.

(** C9 on the absent address 0x50 and an empty bus. *)
Lemma fresh_engine_stop_missed_witness :
  let header := start_cond ++ send_byte (2 * 80) ++ ack_clock in
  let d2 := feed bus_empty read_count
              (feed bus_empty read_count i2c_gpio_init header) stop_cond in
  i2c d2 = [HasDevice 80] /\ state d2 = I2C_TRANSMIT /\ slave_addr d2 = 80 /\
  i2c (feed bus_empty read_count used_engine (header ++ stop_cond)) =
    [HasDevice 80; Stop 80].
Proof.
  cbv zeta.
  destruct (fresh_engine_stop_missed bus_empty read_count 80)
    as (_ & _ & (H1 & _ & H2 & _ & H3) & (_ & H4 & _)).
  - lia.
  - reflexivity.
  - split; [exact H1 | split; [exact H2 | split; [exact H3 | exact H4]]].
Defined.
